(** * GPS broadcast ephemeris: satellite position and clock correction

    A shallow embedding of [NavDataFrame::gps_ecef], [NavDataFrame::gps_dtsv]
    (gpsnav.cpp) and [NavDataFrame::gps_stateNclock] (navrnx.hpp).

    The routines are written once, over an interface for the C++ type
    [double], and read at two instances of it:
    - [binary64]: IEEE 754 double precision, the arithmetic the compiled
      program runs. The functions of <cmath> stay a parameter of the
      theorems; the runs take their values, at the arguments they meet,
      from [cmath_values].
    - [Rreal]: exact real arithmetic, in which the formulae of the
      interface specification IS-GPS-200 are stated. It is used where a
      statement carries over to double precision, and for runs.
    What depends on control flow only is proved for every instance. *)

From Stdlib Require Import ZArith List Bool Lia Reals Lra Wf_nat.
From Stdlib Require Floats.
Import ListNotations.

Set Implicit Arguments.

(** ** The type [double] *)

(** Arithmetic of the language itself. [lit m k] is the decimal literal
    [m]e[k]; [trunc] is the integer part, toward zero, of a number that
    has one (an infinity and a NaN have none). *)
Class Arith (D : Type) : Type := {
  lit : Z -> Z -> D;
  fneg : D -> D;
  fadd : D -> D -> D;
  fsub : D -> D -> D;
  fmul : D -> D -> D;
  fdiv : D -> D -> D;
  fgt : D -> D -> bool;
  flt : D -> D -> bool;
  std_sqrt : D -> D;
  std_abs : D -> D;
  trunc : D -> option Z
}.

(** The functions of <cmath> the routines call. *)
Class Libm (D : Type) : Type := {
  std_sin : D -> D;
  std_cos : D -> D;
  std_acos : D -> D;
  std_atan2 : D -> D -> D
}.

Declare Scope dbl_scope.
Delimit Scope dbl_scope with dbl.
Notation "- x" := (fneg x) : dbl_scope.
Infix "+" := fadd : dbl_scope.
Infix "-" := fsub : dbl_scope.
Infix "*" := fmul : dbl_scope.
Infix "/" := fdiv : dbl_scope.
Infix ">?" := fgt (at level 70, no associativity) : dbl_scope.
Infix "<?" := flt (at level 70, no associativity) : dbl_scope.

(** ** The date and time library

    [ngpt::datetime<T>] (ggdatetime/dtcalendar.hpp) is used through four
    operations only. *)
Class DateTime (D T : Type) : Type := {
  (** [ngpt::datetime<T>(ngpt::gps_week, ngpt::seconds)] *)
  datetime_of_week : Z -> Z -> T;
  (** [t.mjd()] *)
  mjd : T -> Z;
  (** [t.sec().to_fractional_seconds()] *)
  sec_fractional : T -> D;
  (** [ngpt::delta_sec(a, b).to_fractional_seconds()] *)
  delta_sec_fractional : T -> T -> D
}.

(** ** Memory

    Output parameters are raw pointers and a reference: a memory of
    [double] cells, addressed by integers. A nullable pointer is an
    [option]. *)
Definition addr := Z.

Definition mem (D : Type) := addr -> D.

Definition store {D : Type} (m : mem D) (p : addr) (v : D) : mem D :=
  fun q => if Z.eqb q p then v else m q.

(** ** Loops *)

(** [for (...; cond; step) body], with [step] folded into [body]. The loop
    stops when [cond] fails; [fuel] bounds the number of passes. *)
Fixpoint while {St : Type} (fuel : nat) (cond : St -> bool)
  (body : St -> St) (s : St) : St :=
  match fuel with
  | O => s
  | S fuel' => if cond s then while fuel' cond body (body s) else s
  end.

(** The state after [k] passes, whatever [cond] says. *)
Fixpoint passes {St : Type} (k : nat) (body : St -> St) (s : St) : St :=
  match k with
  | O => s
  | S k' => passes k' body (body s)
  end.

(** ** The navigation data frame (navrnx.hpp, lines 175-179)

    [D] is the type [double], [T] the type [ngpt::datetime<ngpt::seconds>]. *)
Record NavDataFrame (D T : Type) : Type := {
  toc__ : T;          (* Time of clock *)
  data__ : list D     (* Data block, double[31] *)
}.

Section Program.

Context {D : Type} {arith : Arith D} {libm : Libm D}.
Local Open Scope dbl_scope.

(** ** Constants (gpsnav.cpp, lines 42-55) *)

(** WGS 84 value of the earth's gravitational constant for GPS user *)
Definition mi_gps : D := lit 3986005 8.

(** WGS 84 value of the earth's rotation rate *)
Definition OMEGAE_dot : D := lit 72921151467 (-15).

(** PZ-90/GLO mean angular velocity of the Earth relative to vernal
    equinox *)
Definition OMEGA_E : D := lit 72921151467 (-15).

(** Seconds in (GPS) week *)
Definition SEC_IN_WEEK : D := lit 604800 0.

(** Constant F for SV Clock Correction in seconds/sqrt(meters) *)
Definition F_CLOCK : D := - lit 4442807633 (-19).

(** Limit for solving (iteratively) the Kepler equation *)
Definition LIMIT : D := lit 1 (-14).

(** [data__[idx]], for the constant indices of the source. *)
Definition data {T : Type} (nav : NavDataFrame D T) (idx : nat) : D :=
  nth idx (data__ nav) (lit 0 0).

(** ** Kepler's equation (gpsnav.cpp, lines 94-104 and 191-199)

    The loop is written twice in the source, with the same text. *)

Record kepler_state : Type := {
  k_i : Z;
  k_E : D;
  k_Ek : D
}.

(** [std::abs(E-Ek)>LIMIT && i<1001] *)
Definition kepler_cond (s : kepler_state) : bool :=
  (std_abs (k_E s - k_Ek s) >? LIMIT) && (k_i s <? 1001)%Z.

(** [Ek = E; E = std::sin(Ek)*e+Mk;] and then [i++] *)
Definition kepler_body (Mk e : D) (s : kepler_state) : kepler_state :=
  let Ek := k_E s in
  let E := std_sin Ek * e + Mk in
  {| k_i := k_i s + 1; k_E := E; k_Ek := Ek |}.

(** [double E (Mk); double Ek (0e0); ... i=0] *)
Definition kepler_init (Mk : D) : kepler_state :=
  {| k_i := 0; k_E := Mk; k_Ek := lit 0 0 |}.

(** The state the loop is left in. 1001 passes are all it can make
    ([kepler_exit] below). *)
Definition kepler (Mk e : D) : kepler_state :=
  while 1001 kepler_cond (kepler_body Mk e) (kepler_init Mk).

(** [if (i>=1000) return 1; Ek = E;] *)
Definition kepler_solve (Mk e : D) : Z + D :=
  let s := kepler Mk e in
  if (k_i s >=? 1000)%Z then inl 1%Z else inr (k_E s).

(** *** The run of the loop, pass by pass *)

(** The iterates: [E_0 = Mk], [E_(k+1) = sin(E_k)*e + Mk]. *)
Fixpoint kepler_E (Mk e : D) (k : nat) : D :=
  match k with
  | O => Mk
  | S j => std_sin (kepler_E Mk e j) * e + Mk
  end.

(** What [Ek] holds when [E] holds [E_k]: the iterate before, and the
    initial [0e0] when there is none. *)
Definition kepler_Ek (Mk e : D) (k : nat) : D :=
  match k with
  | O => lit 0 0
  | S j => kepler_E Mk e j
  end.

(** The test [std::abs(E-Ek)>LIMIT] after [k] passes. *)
Definition kepler_test (Mk e : D) (k : nat) : bool :=
  std_abs (kepler_E Mk e k - kepler_Ek Mk e k) >? LIMIT.

(** ** Satellite position (gpsnav.cpp, lines 72-147) *)

(** Lines 82-90: [tk], or the status of the early return. [DEBUG] says
    whether the macro of that name is defined; the message it sends to
    [std::cerr] is left out. *)
Definition gps_ecef_tk (DEBUG : bool) (toe_sec t_sec : D) : Z + D :=
  let tk := t_sec - toe_sec in
  if DEBUG then
    if (tk <? - lit 302400 0) || (tk >? lit 302400 0) then inl (-1)%Z
    else
      let tk := if tk >? lit 302400 0 then tk - lit 604800 0 else tk in
      let tk := if tk <? - lit 302400 0 then tk + lit 604800 0 else tk in
      inr tk
  else inr tk.

(** Lines 80-81, 91-92: the mean anomaly. *)
Definition mean_anomaly {T : Type} (nav : NavDataFrame D T) (tk : D) : D :=
  let A := data nav 10 * data nav 10 in
  let n0 := std_sqrt (mi_gps / (A * A * A)) in
  let n := n0 + data nav 5 in
  data nav 6 + n * tk.

(** Lines 108-113: the true anomaly. *)
Definition true_anomaly (e E : D) : D :=
  let sinE := std_sin E in
  let cosE := std_cos E in
  let ecosEm1 := lit 1 0 - e * cosE in
  let vk_ar := (std_sqrt (lit 1 0 - e * e) * sinE) / ecosEm1 in
  let vk_pr := (cosE - e) / ecosEm1 in
  std_atan2 vk_ar vk_pr.

(** Lines 114-115: the eccentric anomaly, from the true anomaly. *)
Definition eccentric_anomaly (e vk : D) : D :=
  let cosVk := std_cos vk in
  std_acos ((e + cosVk) / (lit 1 0 + e * cosVk)).

(** Lines 117-143: the three coordinates. *)
Definition gps_ecef_xyz {T : Type} (nav : NavDataFrame D T) (tk E : D)
  : D * D * D :=
  let A := data nav 10 * data nav 10 in
  let e := data nav 8 in
  let vk := true_anomaly e E in
  let Ek := eccentric_anomaly e vk in
  let Fk := vk + data nav 17 in
  let sin2F := std_sin (lit 2 0 * Fk) in
  let cos2F := std_cos (lit 2 0 * Fk) in
  let duk := data nav 9 * sin2F + data nav 7 * cos2F in
  let drk := data nav 4 * sin2F + data nav 16 * cos2F in
  let dik := data nav 14 * sin2F + data nav 12 * cos2F in
  let uk := Fk + duk in
  let rk := A * (lit 1 0 - e * std_cos Ek) + drk in
  let ik := data nav 15 + dik + data nav 19 * tk in
  let xk_dot := rk * std_cos uk in
  let yk_dot := rk * std_sin uk in
  let omega_k :=
    data nav 13 + (data nav 18 - OMEGAE_dot) * tk
    - OMEGAE_dot * data nav 11 in
  let sinOk := std_sin omega_k in
  let cosOk := std_cos omega_k in
  let cosik := std_cos ik in
  (xk_dot * cosOk - yk_dot * sinOk * cosik,
   xk_dot * sinOk + yk_dot * cosOk * cosik,
   yk_dot * std_sin ik).

(** [if (Ek_ptr) *Ek_ptr = Ek;] *)
Definition store_opt (m : mem D) (p : option addr) (v : D) : mem D :=
  match p with
  | Some q => store m q v
  | None => m
  end.

(** [int NavDataFrame::gps_ecef(double toe_sec, double t_sec,
    double* state, double* Ek_ptr) const noexcept]: the status and the
    memory it leaves. *)
Definition gps_ecef {T : Type} (DEBUG : bool) (nav : NavDataFrame D T)
  (toe_sec t_sec : D) (state : addr) (Ek_ptr : option addr) (m : mem D)
  : Z * mem D :=
  let status := 0%Z in
  match gps_ecef_tk DEBUG toe_sec t_sec with
  | inl err => (err, m)
  | inr tk =>
      let Mk := mean_anomaly nav tk in
      let e := data nav 8 in
      match kepler_solve Mk e with
      | inl err => (err, m)
      | inr E =>
          let m := store_opt m Ek_ptr E in
          let '(x, y, z) := gps_ecef_xyz nav tk E in
          let m := store m state x in
          let m := store m (state + 1)%Z y in
          let m := store m (state + 2)%Z z in
          (status, m)
      end
  end.

(** ** Satellite clock correction (gpsnav.cpp, lines 174-213) *)

(** Lines 181-182. *)
Definition gps_dtsv_wrap (dt : D) : D :=
  let dt := if dt >? lit 302400 0 then dt - lit 604800 0 else dt in
  let dt := if dt <? - lit 302400 0 then dt + lit 604800 0 else dt in
  dt.

(** Lines 184-202: the eccentric anomaly used, or the status of the early
    return. [dt] is the wrapped one. *)
Definition gps_dtsv_Ek {T : Type} (nav : NavDataFrame D T) (dt : D)
  (Ein : option addr) (m : mem D) : Z + D :=
  match Ein with
  | None => kepler_solve (mean_anomaly nav dt) (data nav 8)
  | Some p => inr (m p)
  end.

(** Lines 204-209. *)
Definition gps_dtsv_bias {T : Type} (nav : NavDataFrame D T) (dt Ek : D) : D :=
  let Dtr := F_CLOCK * (data nav 8 * data nav 10 * std_sin Ek) in
  let Dtsv := data nav 0 + data nav 1 * dt + (data nav 2 * dt) * dt in
  Dtsv + Dtr.

(** [int NavDataFrame::gps_dtsv(double dt, double& dt_sv, double* Ein)
    const noexcept] *)
Definition gps_dtsv {T : Type} (nav : NavDataFrame D T) (dt : D)
  (dt_sv : addr) (Ein : option addr) (m : mem D) : Z * mem D :=
  let dt := gps_dtsv_wrap dt in
  match gps_dtsv_Ek nav dt Ein m with
  | inl err => (err, m)
  | inr Ek => (0%Z, store m dt_sv (gps_dtsv_bias nav dt Ek))
  end.

(** ** Position and clock together (navrnx.hpp, lines 68-114) *)

(** [static_cast] of a [double] to a signed integer type of [bits] bits:
    the integer part, when the type holds it. Elsewhere the cast is
    undefined; the value taken here is the one the conversion instruction
    of x86-64 leaves, the least number of the type. *)
Definition static_cast_to (bits : Z) (x : D) : Z :=
  match trunc x with
  | Some z =>
      if ((- 2 ^ (bits - 1) <=? z) && (z <? 2 ^ (bits - 1)))%Z then z
      else (- 2 ^ (bits - 1))%Z
  | None => (- 2 ^ (bits - 1))%Z
  end.

(** [static_cast<int>] and [static_cast<long>] (LP64) *)
Definition static_cast_int : D -> Z := static_cast_to 32.

Definition static_cast_long : D -> Z := static_cast_to 64.

Section StateNClock.

Context {T : Type} {datetime : DateTime D T}.

(** [gps__toe2date<T>()] *)
Definition gps__toe2date (nav : NavDataFrame D T) : T :=
  let wk := static_cast_int (data nav 21) in
  let sc := static_cast_long (data nav 11) in
  datetime_of_week wk sc.

(** Lines 99-107: [toe_sec] and [t_sec], the latter referenced to the day
    of ToE. *)
Definition gps_stateNclock_secs (nav : NavDataFrame D T) (t : T) : D * D :=
  let toe := gps__toe2date nav in
  let toe_sec := sec_fractional toe in
  let t_sec := sec_fractional t in
  let t_sec :=
    if (mjd t >? mjd toe)%Z then t_sec + lit 86400 0
    else if (mjd t <? mjd toe)%Z then t_sec - lit 86400 0
    else t_sec in
  (toe_sec, t_sec).

(** [if (status) return status;] *)
Definition nonzero (status : Z) : bool := negb (status =? 0)%Z.

(** [gps_stateNclock(ngpt::datetime<T> t, double* state, double& dt)].
    The calls leave [Ek] and [Ek_in] to their default, [nullptr]. *)
Definition gps_stateNclock (DEBUG : bool) (nav : NavDataFrame D T) (t : T)
  (state : addr) (dt : addr) (m : mem D) : Z * mem D :=
  let '(toe_sec, t_sec) := gps_stateNclock_secs nav t in
  let '(status, m) := gps_ecef DEBUG nav toe_sec t_sec state None m in
  if nonzero status then (status, m)
  else
    let dti := delta_sec_fractional t (toc__ nav) in
    let '(status, m) := gps_dtsv nav dti dt None m in
    if nonzero status then (status, m) else (status, m).

End StateNClock.

End Program.

(** The 1001 passes of the loop are not for [simpl] to unfold. *)
Arguments kepler : simpl never.

(** [data__[idx] = v], on a copy of the frame. *)
Fixpoint list_set {A : Type} (l : list A) (idx : nat) (v : A) : list A :=
  match l, idx with
  | [], _ => []
  | _ :: l', O => v :: l'
  | x :: l', S idx' => x :: list_set l' idx' v
  end.

Definition set_data {D T : Type} (nav : NavDataFrame D T) (idx : nat) (v : D)
  : NavDataFrame D T :=
  {| toc__ := toc__ nav; data__ := list_set (data__ nav) idx v |}.

(** ** IEEE 754 double precision *)

(** The nearest binary64 number to an integer. *)
Definition b64_of_Z (z : Z) : PrimFloat.float :=
  FloatOps.SF2Prim
    (SpecFloat.binary_normalize FloatOps.prec FloatOps.emax z 0 false).

(** A decimal literal. Mantissa and power of ten of the literals of the
    source are binary64 numbers, so one rounding (of the quotient) gives
    the nearest binary64 number to the literal ([b64_literals]). *)
Definition b64_lit (m k : Z) : PrimFloat.float :=
  if (0 <=? k)%Z then b64_of_Z (m * 10 ^ k)
  else PrimFloat.div (b64_of_Z m) (b64_of_Z (10 ^ (- k))).

(** The integer part, toward zero, of a finite number. *)
Definition b64_trunc (x : PrimFloat.float) : option Z :=
  match FloatOps.Prim2SF x with
  | SpecFloat.S754_zero _ => Some 0%Z
  | SpecFloat.S754_finite s m e =>
      let z :=
        if (0 <=? e)%Z then (Z.pos m * 2 ^ e)%Z
        else (Z.pos m / 2 ^ (- e))%Z in
      Some (if s then (- z)%Z else z)
  | _ => None
  end.


#[export] Instance binary64 : Arith PrimFloat.float := {|
  lit := b64_lit;
  fneg := PrimFloat.opp;
  fadd := PrimFloat.add;
  fsub := PrimFloat.sub;
  fmul := PrimFloat.mul;
  fdiv := PrimFloat.div;
  fgt := fun a b => PrimFloat.ltb b a;
  flt := PrimFloat.ltb;
  std_sqrt := PrimFloat.sqrt;
  std_abs := PrimFloat.abs;
  trunc := b64_trunc
|}.

(** ** Exact real arithmetic

    The reading of the routines in which nothing is rounded and nothing
    overflows: the one in which the formulae of IS-GPS-200 are written.
    It is not the arithmetic of the compiled program. It is used below
    for the solver of the specification, for the comparisons and the one
    subtraction of the week wrap, which are exact in double precision on
    the intervals stated, and for runs that show that a hypothesis can
    be met. Division by zero and the square root of a negative number
    are 0 here, as in the library of real numbers. *)

Definition Rlit (m k : Z) : R :=
  if (0 <=? k)%Z then IZR (m * 10 ^ k) else (IZR m / IZR (10 ^ (- k)))%R.

Definition Rgtb (a b : R) : bool := if Rgt_dec a b then true else false.

Definition Rltb (a b : R) : bool := if Rlt_dec a b then true else false.

Definition Rtrunc (x : R) : Z :=
  if Rle_dec 0 x then Int_part x else (- Int_part (- x))%Z.

(** The angle of the point [(x, y)], in the interval from [-PI] (excluded)
    to [PI]; 0 at the origin. *)
Definition Ratan2 (y x : R) : R :=
  let r := sqrt (x * x + y * y) in
  if Req_dec_T r 0 then 0%R
  else if Rle_dec 0 y then acos (x / r) else (- acos (x / r))%R.

#[export] Instance Rreal : Arith R := {|
  lit := Rlit;
  fneg := Ropp;
  fadd := Rplus;
  fsub := Rminus;
  fmul := Rmult;
  fdiv := Rdiv;
  fgt := Rgtb;
  flt := Rltb;
  std_sqrt := sqrt;
  std_abs := Rabs;
  trunc := fun x => Some (Rtrunc x)
|}.

(** <cmath> in exact real arithmetic: the functions themselves, not the
    rounded values a library returns. *)
#[export] Instance Rlibm : Libm R := {|
  std_sin := sin;
  std_cos := cos;
  std_acos := acos;
  std_atan2 := Ratan2
|}.

(** Days and seconds of day: [mjd] 44244 is 6 January 1980, the origin of
    GPS weeks. *)
#[export] Instance Rdatetime : DateTime R (Z * R) := {|
  datetime_of_week := fun wk sc =>
    ((44244 + 7 * wk + sc / 86400)%Z, IZR (sc mod 86400));
  mjd := fst;
  sec_fractional := snd;
  delta_sec_fractional := fun a b =>
    (IZR (fst a - fst b) * 86400 + (snd a - snd b))%R
|}.

(** A memory of zeros, and a frame with the fields the solver reads
    (Delta n, M0, e, sqrt(A)) set and zeros elsewhere; ToE is second 0 of
    GPS week 0. *)
Definition mem_zero : mem R := fun _ => 0%R.

Definition gps_frame (toc : Z * R) (Dn M0 e sqrtA : R)
  : NavDataFrame R (Z * R) :=
  {| toc__ := toc;
     data__ := [0; 0; 0; 0; 0; Dn; M0; 0; e; 0; sqrtA;
                0; 0; 0; 0; 0; 0; 0; 0; 0; 0;
                0; 0; 0; 0; 0; 0; 0; 0; 0; 0]%R |}.

(** Frames for the runs below: a circular orbit ([e = 0]) with [M0 = 1],
    an eccentricity of exactly 1 with [M0 = 0], and two with [e = PI/2]
    on which the iteration alternates for ever, at once
    ([frame_two_cycle]) or one second after ToE ([frame_late], whose mean
    motion is [PI/2] and whose time of clock is the second before ToE). *)
Definition frame_circular := gps_frame (44244%Z, 0%R) 0 1 0 1.

Definition frame_parabolic := gps_frame (44244%Z, 0%R) 0 0 1 1.

Definition frame_two_cycle :=
  gps_frame (44244%Z, 0%R) 0 (PI / 2) (PI / 2) 1.

Definition frame_late :=
  gps_frame (44243%Z, 86399%R) (PI / 2 - sqrt mi_gps) 0 (PI / 2) 1.

(** An eccentricity and a mean anomaly for which the tolerance is first
    met at the thousandth pass ([slow_tests]): the differences of the
    iterates shrink by a factor of 0.99 a pass, from 0.995e-14 / 0.99^999
    to 0.995e-14. *)
Definition slow_e : R := 99 / 100.

Definition slow_M : R := 995e-17 * (100 / 99) ^ 1000.

(** ** The solver of the specification (section 4.1)

    "Fixed-point iteration seeded at E0 = M; each step computes
    E(i+1) = M + e sin(Ei); terminates when |E(i+1) - Ei| <= 1e-14 or
    after 1000 iterations", and "signals NonConvergence if the tolerance
    is not reached within the iteration cap". [n] steps are left and [Ei]
    is the last iterate. *)
Fixpoint spec_KeplerSolver_from (n : nat) (M e Ei : R) : Z + R :=
  match n with
  | O => inl 1%Z
  | S n' =>
      let Enext := (M + e * sin Ei)%R in
      if Rle_dec (Rabs (Enext - Ei)) 1e-14 then inr Enext
      else spec_KeplerSolver_from n' M e Enext
  end.

Definition spec_KeplerSolver (M e : R) : Z + R :=
  spec_KeplerSolver_from 1000 M e M.

(** ** The rest of the frame (navrnx.hpp)

    [set_toc] (line 170) and the overload of [gps_dtsv] that takes an
    epoch (lines 144-152). *)

(** [void set_toc(ngpt::datetime<ngpt::seconds> d) noexcept {toc__=d;}] *)
Definition set_toc {D T : Type} (nav : NavDataFrame D T) (d : T)
  : NavDataFrame D T :=
  {| toc__ := d; data__ := data__ nav |}.

(** [ngpt::delta_sec<T, ngpt::seconds>(a, b).as_underlying_type()]: the
    difference of two dates, as a count of the unit of [T]. *)
Class DeltaSec (T : Type) : Type := {
  delta_sec_underlying : T -> T -> Z
}.

Section ProgramEpoch.

Context {D : Type} {arith : Arith D} {libm : Libm D}.
Context {T : Type} {deltasec : DeltaSec T}.

(** [static_cast<double>] of a [long]. *)
Definition of_long (z : Z) : D := lit z 0.

(** [gps_dtsv(const ngpt::datetime<T>& epoch, double& dtsv)]
    (navrnx.hpp, lines 144-152) *)
Definition gps_dtsv_epoch (nav : NavDataFrame D T) (epoch : T)
  (dtsv : addr) (m : mem D) : Z * mem D :=
  let dsec := delta_sec_underlying epoch (toc__ nav) in
  let sec := of_long dsec in
  gps_dtsv nav sec dtsv None m.

End ProgramEpoch.

(** Whole seconds between two dates of [Rdatetime]. *)
#[export] Instance Rdeltasec : DeltaSec (Z * R) := {|
  delta_sec_underlying := fun a b =>
    ((fst a - fst b) * 86400 + Rtrunc (snd a - snd b))%Z
|}.


(** ** <cmath> in double precision, at the arguments of the runs

    The functions of <cmath> are no part of the sources. For the runs in
    double precision they are given by their values at the arguments the
    runs meet: each value listed is the double nearest to the exact value
    of the function, which is also what glibc returns there. NaN stands
    for the arguments that are not listed; no run meets one. *)

Section CmathValues.

Import PrimFloat.

Definition cmath_lookup (t : list (float * float)) (x : float) : float :=
  match find (fun p => Leibniz.eqb (fst p) x) t with
  | Some p => snd p
  | None => nan
  end.

Definition cmath_lookup2 (t : list (float * float * float)) (y x : float)
  : float :=
  match
    find (fun p => Leibniz.eqb (fst (fst p)) y && Leibniz.eqb (snd (fst p)) x)
      t
  with
  | Some p => snd p
  | None => nan
  end.

(** sin at 1e-8, 0.328125, 1 and 5, and at 96.828125 and the five
    iterates that follow it with an eccentricity of 0.001 *)
Definition cmath_sin : list (float * float) :=
  [(0x1.5798ee2308c3ap-27, 0x1.5798ee2308c3ap-27);
   (0x1.5p-2, 0x1.4a00c9b0f3d2p-2);
   (1, 0x1.aed548f090ceep-1);
   (5, -0x1.eaf81f5e09933p-1);
   (0x1.835p+6, 0x1.108217e14e34dp-1);
   (0x1.83508b8631173p+6, 0x1.104705fc218d9p-1);
   (0x1.83508b67f2ae2p+6, 0x1.104712ca8ecebp-1);
   (0x1.83508b67f93cbp+6, 0x1.104712c7c80a9p-1);
   (0x1.83508b67f93b4p+6, 0x1.104712c7c8a66p-1);
   (0x1.83508b67f93b5p+6, 0x1.104712c7c89f9p-1)]%float.

(** cos at the same, and at the true anomaly -1.2831853071795865 that
    [atan2] gives for 5 *)
Definition cmath_cos : list (float * float) :=
  [(0x1.5798ee2308c3ap-27, 1);
   (0x1.5p-2, 0x1.e4af14b2a449cp-1);
   (1, 0x1.14a280fb5068cp-1);
   (5, 0x1.22785706b4ad9p-2);
   (-0x1.487ed5110b461p+0, 0x1.22785706b4adap-2)]%float.

(** acos at 1, at cos 1 and at the cosine of -1.2831853071795865 *)
Definition cmath_acos : list (float * float) :=
  [(1, 0);
   (0x1.14a280fb5068cp-1, 0x1.fffffffffffffp-1);
   (0x1.22785706b4adap-2, 0x1.487ed5110b461p+0)]%float.

(** atan2 at (sin E, cos E) for the four [E]: 1e-8, 0.32812499999999994,
    1 and -1.2831853071795865 *)
Definition cmath_atan2 : list (float * float * float) :=
  [(0x1.5798ee2308c3ap-27, 1, 0x1.5798ee2308c3ap-27);
   (0x1.4a00c9b0f3d2p-2, 0x1.e4af14b2a449cp-1, 0x1.4ffffffffffffp-2);
   (0x1.aed548f090ceep-1, 0x1.14a280fb5068cp-1, 1);
   (-0x1.eaf81f5e09933p-1, 0x1.22785706b4ad9p-2,
    -0x1.487ed5110b461p+0)]%float.

Definition cmath_values : Libm float := {|
  std_sin := cmath_lookup cmath_sin;
  std_cos := cmath_lookup cmath_cos;
  std_acos := cmath_lookup cmath_acos;
  std_atan2 := cmath_lookup2 cmath_atan2
|}.


(** A frame in double precision with the mean anomaly at reference time
    [M0], the eccentricity [e], a square root of the semi-major axis of 1
    and zeros elsewhere. *)
Definition b64_frame (M0 e : float) : NavDataFrame float unit :=
  {| toc__ := tt;
     data__ := [0; 0; 0; 0; 0; 0; M0; 0; e; 0; 1;
                0; 0; 0; 0; 0; 0; 0; 0; 0; 0;
                0; 0; 0; 0; 0; 0; 0; 0; 0; 0]%float |}.



Definition b64_frame_cycle : NavDataFrame float unit :=
  b64_frame 0x1.835p+6 0x1.0624dd2f1a9fcp-10.

Definition b64_mem_zero : mem float := fun _ => 0%float.

End CmathValues.

(** * Properties *)

(** ** Loops *)

Section Loops.

Variables (St : Type) (cond : St -> bool) (body : St -> St).

Lemma passes_S (k : nat) (s : St) :
  passes (S k) body s = body (passes k body s).
Proof.
  revert s. induction k as [|k IH]; intro s.
  - reflexivity.
  - change (passes (S (S k)) body s) with (passes (S k) body (body s)).
    rewrite IH. reflexivity.
Qed.

(** The loop leaves at the first state that fails [cond]. *)
Lemma while_first (fuel k : nat) (s : St) :
  (k <= fuel)%nat ->
  (forall j, (j < k)%nat -> cond (passes j body s) = true) ->
  cond (passes k body s) = false ->
  while fuel cond body s = passes k body s.
Proof.
  revert fuel s. induction k as [|k IH]; intros fuel s Hle Hbefore Hat.
  - simpl in Hat. destruct fuel; simpl; [reflexivity | now rewrite Hat].
  - destruct fuel as [|fuel]; [lia|]. simpl.
    pose proof (Hbefore 0%nat ltac:(lia)) as H0. simpl in H0. rewrite H0.
    apply IH; [lia | | exact Hat].
    intros j Hj. apply (Hbefore (S j)). lia.
Qed.

(** A loop that is never left makes as many passes as it has fuel. *)
Lemma while_all (fuel : nat) (s : St) :
  (forall j, (j < fuel)%nat -> cond (passes j body s) = true) ->
  while fuel cond body s = passes fuel body s.
Proof.
  revert s. induction fuel as [|fuel IH]; intros s Hall.
  - reflexivity.
  - simpl. pose proof (Hall 0%nat ltac:(lia)) as H0. simpl in H0.
    rewrite H0. apply IH.
    intros j Hj. apply (Hall (S j)). lia.
Qed.

(** What a loop returns is a state some number of passes away, and every
    state before it satisfied [cond]. *)
Lemma while_passes (fuel : nat) (s : St) :
  exists k, (k <= fuel)%nat /\
    while fuel cond body s = passes k body s /\
    (forall j, (j < k)%nat -> cond (passes j body s) = true) /\
    ((k < fuel)%nat -> cond (passes k body s) = false).
Proof.
  revert s. induction fuel as [|fuel IH]; intro s.
  - exists 0%nat. split; [lia|]. split; [reflexivity|].
    split; intros; lia.
  - simpl. destruct (cond s) eqn:Hc.
    + destruct (IH (body s)) as (k & Hk & Heq & Hbefore & Hat).
      exists (S k). split; [lia|]. split; [exact Heq|]. split.
      * intros [|j] Hj; [exact Hc | apply Hbefore; lia].
      * intro Hlt. apply Hat. lia.
    + exists 0%nat. split; [lia|]. split; [reflexivity|]. split.
      * intros j Hj. lia.
      * intros _. exact Hc.
Qed.

End Loops.

(** ** Kepler's equation, for every arithmetic *)

Section Kepler.

Context {D : Type} {arith : Arith D} {libm : Libm D}.
Local Open Scope dbl_scope.

Lemma kepler_passes (Mk e : D) (k : nat) :
  passes k (kepler_body Mk e) (kepler_init Mk) =
  {| k_i := Z.of_nat k; k_E := kepler_E Mk e k; k_Ek := kepler_Ek Mk e k |}.
Proof.
  induction k as [|k IH].
  - reflexivity.
  - rewrite passes_S, IH. unfold kepler_body. cbn [k_i k_E k_Ek].
    f_equal. lia.
Qed.

Lemma kepler_cond_passes (Mk e : D) (k : nat) :
  kepler_cond (passes k (kepler_body Mk e) (kepler_init Mk)) =
  kepler_test Mk e k && (Z.of_nat k <? 1001)%Z.
Proof. rewrite kepler_passes. reflexivity. Qed.

(** The loop is left for good: it made [k] passes, at most 1001, every test
    before held, and the condition fails in the state it returns. More
    fuel would change nothing. *)
Lemma kepler_exit (Mk e : D) :
  exists k, (k <= 1001)%nat /\
    kepler Mk e =
      {| k_i := Z.of_nat k; k_E := kepler_E Mk e k;
         k_Ek := kepler_Ek Mk e k |} /\
    (forall j, (j < k)%nat -> kepler_test Mk e j = true) /\
    ((k < 1001)%nat -> kepler_test Mk e k = false) /\
    kepler_cond (kepler Mk e) = false /\
    (forall fuel, (1001 <= fuel)%nat ->
       while fuel kepler_cond (kepler_body Mk e) (kepler_init Mk) =
       kepler Mk e).
Proof.
  unfold kepler.
  destruct (while_passes kepler_cond (kepler_body Mk e) 1001 (kepler_init Mk))
    as (k & Hk & Heq & Hbefore & Hat).
  assert (Hcond : kepler_cond (passes k (kepler_body Mk e) (kepler_init Mk))
                  = false).
  { destruct (Nat.eq_dec k 1001) as [->|Hne].
    - rewrite kepler_cond_passes. apply andb_false_intro2. reflexivity.
    - apply Hat. lia. }
  exists k. rewrite Heq.
  split; [exact Hk|]. split; [apply kepler_passes|].
  split; [|split; [|split]].
  - intros j Hj. specialize (Hbefore j Hj).
    rewrite kepler_cond_passes in Hbefore.
    apply andb_prop in Hbefore. tauto.
  - intro Hlt. specialize (Hat Hlt). rewrite kepler_cond_passes in Hat.
    apply andb_false_elim in Hat. destruct Hat as [Ht|Hi]; [exact Ht|].
    apply Z.ltb_ge in Hi. lia.
  - exact Hcond.
  - intros fuel Hfuel. apply while_first; [lia | exact Hbefore | exact Hcond].
Qed.

(** The first test to fail decides what the solver returns. *)
Lemma kepler_solve_first (Mk e : D) (k : nat) :
  (k <= 1000)%nat ->
  (forall j, (j < k)%nat -> kepler_test Mk e j = true) ->
  kepler_test Mk e k = false ->
  kepler_solve Mk e =
  if (Z.of_nat k >=? 1000)%Z then inl 1%Z else inr (kepler_E Mk e k).
Proof.
  intros Hk Hbefore Hat. unfold kepler_solve, kepler.
  rewrite (@while_first _ kepler_cond (kepler_body Mk e) 1001 k).
  - rewrite kepler_passes. reflexivity.
  - lia.
  - intros j Hj. rewrite kepler_cond_passes, (Hbefore j Hj).
    apply Z.ltb_lt. lia.
  - rewrite kepler_cond_passes, Hat. reflexivity.
Qed.

Lemma kepler_solve_ok (Mk e : D) (k : nat) :
  (k <= 999)%nat ->
  (forall j, (j < k)%nat -> kepler_test Mk e j = true) ->
  kepler_test Mk e k = false ->
  kepler_solve Mk e = inr (kepler_E Mk e k).
Proof.
  intros Hk Hbefore Hat.
  rewrite (@kepler_solve_first Mk e k) by (lia || assumption).
  destruct (Z.geb_spec (Z.of_nat k) 1000); [lia | reflexivity].
Qed.

(** Tests that hold 1000 times over are a failure, whatever the test
    after them says. *)
Lemma kepler_solve_fail (Mk e : D) :
  (forall j, (j <= 999)%nat -> kepler_test Mk e j = true) ->
  kepler_solve Mk e = inl 1%Z.
Proof.
  intro Hall. unfold kepler_solve.
  destruct (kepler_exit Mk e) as (k & Hk & Heq & Hbefore & Hat & _).
  rewrite Heq. cbn [k_i].
  destruct (Z.geb_spec (Z.of_nat k) 1000) as [_|Hlt]; [reflexivity|].
  rewrite Hall in Hat by lia. discriminate Hat. lia.
Qed.


Lemma kepler_solve_status (Mk e : D) (err : Z) :
  kepler_solve Mk e = inl err -> err = 1%Z.
Proof.
  unfold kepler_solve. destruct (k_i (kepler Mk e) >=? 1000)%Z; congruence.
Qed.

End Kepler.

(** ** The data block *)

Lemma nth_list_set_other {A : Type} (l : list A) (i j : nat) (v d : A) :
  i <> j -> nth j (list_set l i v) d = nth j l d.
Proof.
  revert i j. induction l as [|x l IH]; intros i j Hij.
  - reflexivity.
  - destruct i as [|i], j as [|j]; simpl; try reflexivity.
    + contradiction.
    + apply IH. congruence.
Qed.

Lemma nth_list_set_same {A : Type} (l : list A) (i : nat) (v d : A) :
  (i < length l)%nat -> nth i (list_set l i v) d = v.
Proof.
  revert i. induction l as [|x l IH]; intros i Hi; simpl in Hi.
  - lia.
  - destruct i as [|i]; simpl; [reflexivity | apply IH; lia].
Qed.

(** ** The routines, for every arithmetic *)

Section Routines.

Context {D : Type} {arith : Arith D} {libm : Libm D}.
Context {T : Type} {datetime : DateTime D T}.
Local Open Scope dbl_scope.

Implicit Types (nav : NavDataFrame D T) (m : mem D).

Lemma data_set_data_other nav (i j : nat) (v : D) :
  i <> j -> data (set_data nav i v) j = data nav j.
Proof. intro Hij. unfold data, set_data. simpl. now apply nth_list_set_other. Qed.

Lemma mean_anomaly_set_data nav (i : nat) (v tk : D) :
  i <> 5%nat -> i <> 6%nat -> i <> 10%nat ->
  mean_anomaly (set_data nav i v) tk = mean_anomaly nav tk.
Proof.
  intros H5 H6 H10. unfold mean_anomaly.
  now rewrite !data_set_data_other by assumption.
Qed.

(** Without [DEBUG] the difference of the two times is used as it is. *)
Lemma gps_ecef_tk_release (toe_sec t_sec : D) :
  gps_ecef_tk false toe_sec t_sec = inr (t_sec - toe_sec).
Proof. reflexivity. Qed.

(** With [DEBUG] a difference outside the half week is refused; the two
    lines after the check never change [tk]. *)
Lemma gps_ecef_tk_debug (toe_sec t_sec : D) :
  gps_ecef_tk true toe_sec t_sec =
  let tk := t_sec - toe_sec in
  if (tk <? - lit 302400 0) || (tk >? lit 302400 0) then inl (-1)%Z
  else inr tk.
Proof.
  unfold gps_ecef_tk. cbv zeta.
  destruct (t_sec - toe_sec <? - lit 302400 0) eqn:Hlt;
    destruct (t_sec - toe_sec >? lit 302400 0) eqn:Hgt; simpl;
    try reflexivity.
  now rewrite Hlt.
Qed.

Lemma gps_ecef_tk_status (DEBUG : bool) (toe_sec t_sec : D) (err : Z) :
  gps_ecef_tk DEBUG toe_sec t_sec = inl err -> err = (-1)%Z /\ DEBUG = true.
Proof.
  destruct DEBUG.
  - rewrite gps_ecef_tk_debug. cbv zeta.
    destruct (_ || _); intro H; inversion H; auto.
  - rewrite gps_ecef_tk_release. discriminate.
Qed.

(** The three ways through [gps_ecef]: the early return of the [DEBUG]
    build, the early return of the solver, and the way to the end. *)
Lemma gps_ecef_cases (DEBUG : bool) nav (toe_sec t_sec : D)
  (state : addr) (Ek_ptr : option addr) m :
  (DEBUG = true /\ gps_ecef_tk DEBUG toe_sec t_sec = inl (-1)%Z /\
   gps_ecef DEBUG nav toe_sec t_sec state Ek_ptr m = ((-1)%Z, m)) \/
  (exists tk, gps_ecef_tk DEBUG toe_sec t_sec = inr tk /\
     kepler_solve (mean_anomaly nav tk) (data nav 8) = inl 1%Z /\
     gps_ecef DEBUG nav toe_sec t_sec state Ek_ptr m = (1%Z, m)) \/
  (exists tk E, gps_ecef_tk DEBUG toe_sec t_sec = inr tk /\
     kepler_solve (mean_anomaly nav tk) (data nav 8) = inr E /\
     gps_ecef DEBUG nav toe_sec t_sec state Ek_ptr m =
       (0%Z,
        let '(x, y, z) := gps_ecef_xyz nav tk E in
        store (store (store (store_opt m Ek_ptr E) state x)
                 (state + 1)%Z y) (state + 2)%Z z)).
Proof.
  unfold gps_ecef.
  destruct (gps_ecef_tk DEBUG toe_sec t_sec) as [err|tk] eqn:Htk.
  - destruct (gps_ecef_tk_status _ _ _ Htk) as [-> ->]. left. auto.
  - right. cbv zeta.
    destruct (kepler_solve (mean_anomaly nav tk) (data nav 8))
      as [err|E] eqn:Hsolve.
    + pose proof (kepler_solve_status _ _ Hsolve) as ->. left. exists tk.
      auto.
    + right. exists tk, E. split; [reflexivity|]. split; [exact Hsolve|].
      destruct (gps_ecef_xyz nav tk E) as [[x y] z]. reflexivity.
Qed.

(** The two ways through [gps_dtsv]. *)
Lemma gps_dtsv_cases nav (dt : D) (dt_sv : addr) (Ein : option addr) m :
  (Ein = None /\
   kepler_solve (mean_anomaly nav (gps_dtsv_wrap dt)) (data nav 8)
     = inl 1%Z /\
   gps_dtsv nav dt dt_sv Ein m = (1%Z, m)) \/
  (exists Ek, gps_dtsv_Ek nav (gps_dtsv_wrap dt) Ein m = inr Ek /\
     gps_dtsv nav dt dt_sv Ein m =
       (0%Z, store m dt_sv (gps_dtsv_bias nav (gps_dtsv_wrap dt) Ek))).
Proof.
  destruct Ein as [p|].
  - right. exists (m p). split; reflexivity.
  - unfold gps_dtsv, gps_dtsv_Ek. cbv zeta.
    destruct (kepler_solve (mean_anomaly nav (gps_dtsv_wrap dt)) (data nav 8))
      as [err|Ek] eqn:Hsolve.
    + left. pose proof (kepler_solve_status _ _ Hsolve) as ->. auto.
    + right. exists Ek. auto.
Qed.

Lemma gps_dtsv_set_data nav (i : nat) (v dt : D) (dt_sv : addr)
  (Ein : option addr) m :
  ~ In i [0; 1; 2; 5; 6; 8; 10]%nat ->
  gps_dtsv (set_data nav i v) dt dt_sv Ein m = gps_dtsv nav dt dt_sv Ein m.
Proof.
  intro Hi. simpl in Hi.
  unfold gps_dtsv, gps_dtsv_Ek, gps_dtsv_bias. cbv zeta.
  rewrite mean_anomaly_set_data by intuition congruence.
  rewrite !data_set_data_other by intuition congruence. reflexivity.
Qed.

End Routines.

(** ** Exact real arithmetic *)

Section Real.

Local Open Scope R_scope.

Lemma Rgtb_true (a b : R) : a > b -> Rgtb a b = true.
Proof. intro H. unfold Rgtb. destruct (Rgt_dec a b); [reflexivity | lra]. Qed.

Lemma Rgtb_false (a b : R) : a <= b -> Rgtb a b = false.
Proof. intro H. unfold Rgtb. destruct (Rgt_dec a b); [lra | reflexivity]. Qed.

Lemma Rltb_true (a b : R) : a < b -> Rltb a b = true.
Proof. intro H. unfold Rltb. destruct (Rlt_dec a b); [reflexivity | lra]. Qed.

Lemma Rltb_false (a b : R) : b <= a -> Rltb a b = false.
Proof. intro H. unfold Rltb. destruct (Rlt_dec a b); [lra | reflexivity]. Qed.

Lemma Rgtb_spec (a b : R) : Rgtb a b = true <-> a > b.
Proof.
  split; [|apply Rgtb_true]. unfold Rgtb.
  destruct (Rgt_dec a b); [trivial | discriminate].
Qed.

(** The constants, as real numbers. *)
Lemma LIMIT_real : LIMIT (D := R) = 1e-14.
Proof. reflexivity. Qed.

Lemma F_CLOCK_real : F_CLOCK (D := R) = -4.442807633e-10.
Proof.
  unfold F_CLOCK. cbn [lit fneg Rreal]. unfold Rlit.
  change (0 <=? -19)%Z with false. cbv iota.
  change (10 ^ (- (-19)))%Z with 10000000000000000000%Z. lra.
Qed.

Lemma mi_gps_real : mi_gps (D := R) = 3.986005e14.
Proof. unfold mi_gps. cbn. lra. Qed.

Lemma kepler_test_real (Mk e : R) (k : nat) :
  kepler_test Mk e k = true <->
  Rabs (kepler_E Mk e k - kepler_Ek Mk e k) > 1e-14.
Proof. unfold kepler_test. rewrite LIMIT_real. apply Rgtb_spec. Qed.

Lemma kepler_test_real_false (Mk e : R) (k : nat) :
  kepler_test Mk e k = false <->
  Rabs (kepler_E Mk e k - kepler_Ek Mk e k) <= 1e-14.
Proof.
  unfold kepler_test. rewrite LIMIT_real. cbn [fgt fsub std_abs Rreal].
  unfold Rgtb. destruct (Rgt_dec _ _); split; intro H;
    try reflexivity; try discriminate; lra.
Qed.

Lemma kepler_E_S (M q : R) (k : nat) :
  kepler_E M q (S k) = sin (kepler_E M q k) * q + M.
Proof. reflexivity. Qed.

(** *** The week wrap of [gps_dtsv] *)

Lemma gps_dtsv_wrap_real (dt : R) :
  gps_dtsv_wrap dt =
  if Rgt_dec dt 302400 then dt - 604800
  else if Rlt_dec dt (-302400) then dt + 604800 else dt.
Proof.
  unfold gps_dtsv_wrap. cbn. unfold Rgtb, Rltb.
  repeat match goal with
         | |- context [Rgt_dec ?a ?b] => destruct (Rgt_dec a b)
         | |- context [Rlt_dec ?a ?b] => destruct (Rlt_dec a b)
         end; lra.
Qed.

(** *** A circular orbit *)

(** With [e = 0] the first pass, if there is one, gives [Mk] back. *)
Lemma kepler_solve_circular (Mk : R) : kepler_solve Mk 0 = inr Mk.
Proof.
  destruct (Rgt_dec (Rabs (Mk - 0)) 1e-14) as [Hgt|Hle].
  - replace (inr Mk : Z + R) with (inr (kepler_E Mk 0 1) : Z + R).
    + apply kepler_solve_ok.
      * lia.
      * intros j Hj. assert (j = 0%nat) as -> by lia.
        apply kepler_test_real. cbn. replace (0 / 1) with 0 by lra.
        exact Hgt.
      * apply kepler_test_real_false. cbn.
        replace (sin Mk * 0 + Mk - Mk) with 0 by ring.
        rewrite Rabs_R0. lra.
    + cbn. f_equal. ring.
  - apply (@kepler_solve_ok R _ _ Mk 0 0%nat).
    + lia.
    + intros j Hj. lia.
    + apply kepler_test_real_false. cbn. replace (0 / 1) with 0 by lra.
      lra.
Qed.

(** *** A run that never settles

    With [Mk = e = PI/2] the iterates alternate between [PI/2] and [PI]. *)
Lemma kepler_E_two_cycle (k : nat) :
  kepler_E (PI / 2) (PI / 2) k = if Nat.even k then PI / 2 else PI.
Proof.
  induction k as [|k IH].
  - reflexivity.
  - rewrite Nat.even_succ, <- Nat.negb_even.
    cbn [kepler_E]. rewrite IH.
    destruct (Nat.even k); cbn.
    + rewrite sin_PI2. lra.
    + rewrite sin_PI. lra.
Qed.

Lemma kepler_test_two_cycle (k : nat) :
  kepler_test (PI / 2) (PI / 2) k = true.
Proof.
  apply kepler_test_real. pose proof PI2_1 as Hpi.
  destruct k as [|k]; cbn [kepler_Ek].
  - cbn. replace (PI / 2 - 0 / 1) with (PI / 2) by lra.
    rewrite Rabs_pos_eq; lra.
  - rewrite !kepler_E_two_cycle, Nat.even_succ, <- Nat.negb_even.
    destruct (Nat.even k); cbn.
    + replace (PI - PI / 2) with (PI / 2) by lra. rewrite Rabs_pos_eq; lra.
    + replace (PI / 2 - PI) with (- (PI / 2)) by lra.
      rewrite Rabs_Ropp, Rabs_pos_eq; lra.
Qed.

Lemma kepler_solve_two_cycle : kepler_solve (PI / 2) (PI / 2) = inl 1%Z.
Proof. apply kepler_solve_fail. intros j _. apply kepler_test_two_cycle. Qed.

(** *** The angle of a point

    [Ratan2] is the [atan2] of exact arithmetic. *)

Lemma Ratan2_bound (y x : R) : - PI < Ratan2 y x <= PI.
Proof.
  unfold Ratan2. cbv zeta. pose proof PI_RGT_0 as Hpi.
  set (r := sqrt (x * x + y * y)).
  pose proof (acos_bound (x / r)) as Hb.
  destruct (Req_dec_T r 0) as [Hr|Hr]; [lra|].
  destruct (Rle_dec 0 y) as [Hy|Hy]; [lra|].
  assert (Hrr : r * r = x * x + y * y) by (apply sqrt_sqrt; nra).
  assert (Hpos : 0 < r).
  { pose proof (sqrt_pos (x * x + y * y)) as H0. fold r in H0. lra. }
  assert (Hx : - r < x < r) by nra.
  assert (Hratio : -1 < x / r < 1).
  { split; apply Rmult_lt_reg_r with r; try exact Hpos;
      unfold Rdiv; rewrite Rmult_assoc, Rinv_l by lra; lra. }
  pose proof (acos_bound_lt (x / r) Hratio). lra.
Qed.

Section Angle.

Variables (y x : R).
Let r := sqrt (x * x + y * y).
Hypothesis origin : r <> 0.

Lemma Ratan2_radius : 0 < r /\ r * r = x * x + y * y.
Proof.
  assert (Hsq : 0 <= x * x + y * y) by nra.
  split; [|apply sqrt_sqrt; exact Hsq].
  pose proof (sqrt_pos (x * x + y * y)) as Hpos. fold r in Hpos. lra.
Qed.

Lemma Ratan2_ratio : -1 <= x / r <= 1 /\ 1 - (x / r)² = (y / r)².
Proof.
  destruct Ratan2_radius as [Hr Hrr]. split.
  - assert (Hx : - r <= x <= r) by nra.
    split.
    + apply Rmult_le_reg_r with r; [exact Hr|].
      unfold Rdiv. rewrite Rmult_assoc, Rinv_l by lra. lra.
    + apply Rmult_le_reg_r with r; [exact Hr|].
      unfold Rdiv. rewrite Rmult_assoc, Rinv_l by lra. lra.
  - unfold Rsqr.
    assert (H : x / r * (x / r) + y / r * (y / r)
                = (x * x + y * y) / (r * r)) by (field; lra).
    rewrite <- Hrr in H.
    replace (r * r / (r * r)) with 1 in H by (field; lra). lra.
Qed.

Lemma cos_Ratan2 : cos (Ratan2 y x) = x / r.
Proof.
  destruct Ratan2_ratio as [Hb _]. unfold Ratan2. cbv zeta. fold r.
  destruct (Req_dec_T r 0); [contradiction|].
  destruct (Rle_dec 0 y); [|rewrite cos_neg]; apply cos_acos; exact Hb.
Qed.

Lemma sin_Ratan2 : sin (Ratan2 y x) = y / r.
Proof.
  destruct Ratan2_radius as [Hr _]. destruct Ratan2_ratio as [Hb Hsq].
  unfold Ratan2. cbv zeta. fold r.
  destruct (Req_dec_T r 0); [contradiction|].
  assert (Hinv : 0 < / r) by (apply Rinv_0_lt_compat; exact Hr).
  destruct (Rle_dec 0 y) as [Hy|Hy].
  - rewrite sin_acos, Hsq, sqrt_Rsqr_abs by exact Hb.
    apply Rabs_pos_eq. unfold Rdiv. nra.
  - rewrite sin_neg, sin_acos, Hsq, sqrt_Rsqr_abs by exact Hb.
    rewrite Rabs_left; [lra|]. unfold Rdiv. nra.
Qed.

End Angle.

(** On the unit circle the angle of [(cos a, sin a)] is [a] brought back
    between [-PI] and [PI]. *)
Lemma Ratan2_circle (y x : R) :
  x * x + y * y = 1 ->
  cos (Ratan2 y x) = x /\ sin (Ratan2 y x) = y /\
  Ratan2 y x = if Rle_dec 0 y then acos x else - acos x.
Proof.
  intro Hone.
  assert (Hr : sqrt (x * x + y * y) = 1) by (rewrite Hone; apply sqrt_1).
  assert (Hne : sqrt (x * x + y * y) <> 0) by lra.
  split; [|split].
  - rewrite (@cos_Ratan2 y x Hne), Hr. lra.
  - rewrite (@sin_Ratan2 y x Hne), Hr. lra.
  - unfold Ratan2. cbv zeta. rewrite Hr.
    destruct (Req_dec_T 1 0); [lra|].
    replace (x / 1) with x by lra. reflexivity.
Qed.

Lemma Ratan2_sin_cos (a : R) :
  - PI < a <= PI -> Ratan2 (sin a) (cos a) = a.
Proof.
  intros [Hlo Hhi].
  assert (Hone : cos a * cos a + sin a * sin a = 1).
  { pose proof (sin2_cos2 a) as H. unfold Rsqr in H. lra. }
  destruct (Ratan2_circle Hone) as (_ & _ & ->).
  destruct (Rle_dec 0 (sin a)) as [Hs|Hs].
  - apply acos_cos. split; [|exact Hhi].
    destruct (Rle_dec 0 a) as [Ha|Ha]; [exact Ha|].
    pose proof (sin_lt_0_var a Hlo ltac:(lra)). lra.
  - assert (Ha : a < 0).
    { destruct (Rlt_dec a 0) as [Ha|Ha]; [exact Ha|].
      pose proof (sin_ge_0 a ltac:(lra) Hhi). lra. }
    rewrite <- (cos_neg a), acos_cos by lra. lra.
Qed.

End Real.

(** ** The routines, claim by claim *)

Section Claims.

Context {D : Type} {arith : Arith D} {libm : Libm D}.
Context {T : Type} {datetime : DateTime D T}.
Local Open Scope dbl_scope.

Implicit Types (nav : NavDataFrame D T) (m : mem D).

Lemma gps_ecef_unsolved (DEBUG : bool) nav (toe_sec t_sec tk : D)
  (state : addr) (Ek_ptr : option addr) m (err : Z) :
  gps_ecef_tk DEBUG toe_sec t_sec = inr tk ->
  kepler_solve (mean_anomaly nav tk) (data nav 8) = inl err ->
  gps_ecef DEBUG nav toe_sec t_sec state Ek_ptr m = (err, m).
Proof. intros Htk Hsolve. unfold gps_ecef. now rewrite Htk, Hsolve. Qed.

Lemma gps_ecef_solved (DEBUG : bool) nav (toe_sec t_sec tk E : D)
  (state : addr) (Ek_ptr : option addr) m :
  gps_ecef_tk DEBUG toe_sec t_sec = inr tk ->
  kepler_solve (mean_anomaly nav tk) (data nav 8) = inr E ->
  gps_ecef DEBUG nav toe_sec t_sec state Ek_ptr m =
  (0%Z,
   let '(x, y, z) := gps_ecef_xyz nav tk E in
   store (store (store (store_opt m Ek_ptr E) state x) (state + 1)%Z y)
     (state + 2)%Z z).
Proof.
  intros Htk Hsolve. unfold gps_ecef. rewrite Htk, Hsolve. cbv zeta.
  destruct (gps_ecef_xyz nav tk E) as [[x y] z]. reflexivity.
Qed.

Lemma gps_dtsv_unsolved nav (dt : D) (dt_sv : addr) m (err : Z) :
  kepler_solve (mean_anomaly nav (gps_dtsv_wrap dt)) (data nav 8)
    = inl err ->
  gps_dtsv nav dt dt_sv None m = (err, m).
Proof.
  intro Hsolve. unfold gps_dtsv, gps_dtsv_Ek. cbv zeta. now rewrite Hsolve.
Qed.

Lemma gps_dtsv_solved nav (dt E : D) (dt_sv : addr) m :
  kepler_solve (mean_anomaly nav (gps_dtsv_wrap dt)) (data nav 8) = inr E ->
  gps_dtsv nav dt dt_sv None m =
  (0%Z, store m dt_sv (gps_dtsv_bias nav (gps_dtsv_wrap dt) E)).
Proof.
  intro Hsolve. unfold gps_dtsv, gps_dtsv_Ek. cbv zeta. now rewrite Hsolve.
Qed.

Lemma gps_ecef_status nav (toe_sec t_sec : D) (state : addr)
  (Ek_ptr : option addr) m :
  fst (gps_ecef false nav toe_sec t_sec state Ek_ptr m) =
  if Z.geb (k_i (kepler (mean_anomaly nav (t_sec - toe_sec)) (data nav 8)))
       1000
  then 1%Z else 0%Z.
Proof.
  unfold gps_ecef. rewrite gps_ecef_tk_release. cbv zeta.
  unfold kepler_solve. cbv zeta.
  destruct (k_i _ >=? 1000)%Z; [reflexivity|].
  destruct (gps_ecef_xyz _ _ _) as [[x y] z]. reflexivity.
Qed.

Lemma gps_dtsv_status nav (dt : D) (dt_sv : addr) m :
  fst (gps_dtsv nav dt dt_sv None m) =
  if Z.geb (k_i (kepler (mean_anomaly nav (gps_dtsv_wrap dt)) (data nav 8)))
       1000
  then 1%Z else 0%Z.
Proof.
  unfold gps_dtsv, gps_dtsv_Ek. cbv zeta. unfold kepler_solve. cbv zeta.
  destruct (k_i _ >=? 1000)%Z; reflexivity.
Qed.

Lemma kepler_passes_bound (Mk e : D) :
  (0 <= k_i (kepler Mk e) <= 1001)%Z /\ kepler_cond (kepler Mk e) = false.
Proof.
  destruct (kepler_exit Mk e) as (k & Hk & Heq & _ & _ & Hcond & _).
  split; [|exact Hcond]. rewrite Heq. cbn [k_i]. lia.
Qed.

(** C2, as amended. The solver starts from [E = Mk] and [Ek = 0], and
    makes a pass ([Ek = E; E = sin(Ek)*e + Mk]) while
    [|E - Ek| > 1e-14]. So test 0 compares [Mk] with the initial 0, and
    test [k], for [k >= 1], compares the iterates [E_k] and [E_(k-1)].
    If the first test to fail is test [k] and [k <= 999], the solver
    succeeds with [E_k], after [k] passes (none when [|Mk| <= 1e-14]);
    if the tests 0 to 1000 all hold it returns the status 1. No other
    status is returned, and the loop makes at most 1001 passes. *)
Theorem kepler_solve_first_failing_test (Mk e : D) :
  (forall k, (k <= 999)%nat ->
     (forall j, (j < k)%nat -> kepler_test Mk e j = true) ->
     kepler_test Mk e k = false ->
     kepler_solve Mk e = inr (kepler_E Mk e k)) /\
  ((forall j, (j <= 1000)%nat -> kepler_test Mk e j = true) ->
   kepler_solve Mk e = inl 1%Z) /\
  (forall err, kepler_solve Mk e = inl err -> err = 1%Z) /\
  (exists k, (k <= 1001)%nat /\
     kepler Mk e = passes k (kepler_body Mk e) (kepler_init Mk) /\
     kepler_cond (kepler Mk e) = false).
Proof.
  split; [|split; [|split]].
  - intros k Hk Hbefore Hat. now apply kepler_solve_ok.
  - intro Hall. apply kepler_solve_fail. intros j Hj. apply Hall. lia.
  - intros err. apply kepler_solve_status.
  - destruct (kepler_exit Mk e) as (k & Hk & Heq & _ & _ & Hcond & _).
    exists k. split; [exact Hk|]. split; [|exact Hcond].
    rewrite Heq. symmetry. apply kepler_passes.
Qed.


(** C6, as amended. Whatever the eccentricity, 1.0 and more included,
    [gps_ecef] and [gps_dtsv] without [Ein] come to an end, with the
    status 0 or 1 (or -1, from [gps_ecef] built with [DEBUG]): the loop of
    the solver is left after at most 1001 passes, and the status is 1
    exactly when it made 1000 passes or more. *)
Theorem gps_solver_bounded nav (toe_sec t_sec dt : D) (state dt_sv : addr)
  (Ek_ptr : option addr) m :
  let s_ecef := fst (gps_ecef false nav toe_sec t_sec state Ek_ptr m) in
  let s_debug := fst (gps_ecef true nav toe_sec t_sec state Ek_ptr m) in
  let s_dtsv := fst (gps_dtsv nav dt dt_sv None m) in
  let run_ecef := kepler (mean_anomaly nav (t_sec - toe_sec)) (data nav 8) in
  let run_dtsv := kepler (mean_anomaly nav (gps_dtsv_wrap dt)) (data nav 8) in
  (s_ecef = 0%Z \/ s_ecef = 1%Z) /\
  (s_debug = 0%Z \/ s_debug = 1%Z \/ s_debug = (-1)%Z) /\
  (s_dtsv = 0%Z \/ s_dtsv = 1%Z) /\
  (s_ecef = 1%Z <-> (1000 <= k_i run_ecef)%Z) /\
  (s_dtsv = 1%Z <-> (1000 <= k_i run_dtsv)%Z) /\
  (0 <= k_i run_ecef <= 1001)%Z /\ kepler_cond run_ecef = false /\
  (0 <= k_i run_dtsv <= 1001)%Z /\ kepler_cond run_dtsv = false.
Proof.
  intros s_ecef s_debug s_dtsv run_ecef run_dtsv.
  destruct (kepler_passes_bound (mean_anomaly nav (t_sec - toe_sec))
              (data nav 8)) as [Hi1 Hc1].
  destruct (kepler_passes_bound (mean_anomaly nav (gps_dtsv_wrap dt))
              (data nav 8)) as [Hi2 Hc2].
  fold run_ecef in Hi1, Hc1. fold run_dtsv in Hi2, Hc2.
  assert (Hecef : s_ecef = if (k_i run_ecef >=? 1000)%Z then 1%Z else 0%Z)
    by apply gps_ecef_status.
  assert (Hdtsv : s_dtsv = if (k_i run_dtsv >=? 1000)%Z then 1%Z else 0%Z)
    by apply gps_dtsv_status.
  assert (Hdebug : s_debug = 0%Z \/ s_debug = 1%Z \/ s_debug = (-1)%Z).
  { unfold s_debug.
    destruct (gps_ecef_cases true nav toe_sec t_sec state Ek_ptr m)
      as [(_ & _ & ->)|[(tk & _ & _ & ->)|(tk & E & _ & _ & ->)]];
      simpl; auto. }
  clearbody s_ecef s_debug s_dtsv run_ecef run_dtsv. subst s_ecef s_dtsv.
  destruct (Z.geb_spec (k_i run_ecef) 1000);
    destruct (Z.geb_spec (k_i run_dtsv) 1000);
    repeat match goal with |- _ /\ _ => split end;
    try assumption; try lia; auto; split; intros; lia.
Qed.

(** C8. [gps_stateNclock] hands on the status of the solver as it is:
    when the solver fails inside [gps_ecef], the status (1) is returned
    with the memory untouched, [gps_dtsv] is not called; when [gps_ecef]
    succeeds and the solver fails inside [gps_dtsv], the status (1) is
    returned with the memory as [gps_ecef] left it. *)
Theorem gps_stateNclock_propagates (DEBUG : bool) nav (t : T)
  (state dt : addr) m :
  let '(toe_sec, t_sec) := gps_stateNclock_secs nav t in
  let dti := delta_sec_fractional t (toc__ nav) in
  let e := data nav 8 in
  (forall tk err,
     gps_ecef_tk DEBUG toe_sec t_sec = inr tk ->
     kepler_solve (mean_anomaly nav tk) e = inl err ->
     gps_ecef DEBUG nav toe_sec t_sec state None m = (err, m) /\
     gps_stateNclock DEBUG nav t state dt m = (err, m)) /\
  (forall tk E err,
     gps_ecef_tk DEBUG toe_sec t_sec = inr tk ->
     kepler_solve (mean_anomaly nav tk) e = inr E ->
     kepler_solve (mean_anomaly nav (gps_dtsv_wrap dti)) e = inl err ->
     let m' := snd (gps_ecef DEBUG nav toe_sec t_sec state None m) in
     gps_dtsv nav dti dt None m' = (err, m') /\
     gps_stateNclock DEBUG nav t state dt m = (err, m')).
Proof.
  unfold gps_stateNclock.
  destruct (gps_stateNclock_secs nav t) as [toe_sec t_sec]. cbv zeta.
  split.
  - intros tk err Htk Hsolve.
    pose proof (kepler_solve_status _ _ Hsolve) as ->.
    rewrite (@gps_ecef_unsolved DEBUG nav toe_sec t_sec tk state None m 1
               Htk Hsolve).
    split; reflexivity.
  - intros tk E err Htk Hsolve Hfail.
    pose proof (kepler_solve_status _ _ Hfail) as ->.
    rewrite (@gps_ecef_solved DEBUG nav toe_sec t_sec tk E state None m
               Htk Hsolve).
    cbn [snd nonzero Z.eqb negb].
    rewrite (@gps_dtsv_unsolved nav _ dt _ 1 Hfail).
    split; reflexivity.
Qed.

(** C9. When [gps_ecef] returns a status other than 0, the memory is the
    one it was called with: neither [state] nor [*Ek_ptr] is written. *)
Theorem gps_ecef_error_writes_nothing (DEBUG : bool) nav (toe_sec t_sec : D)
  (state : addr) (Ek_ptr : option addr) m :
  fst (gps_ecef DEBUG nav toe_sec t_sec state Ek_ptr m) <> 0%Z ->
  snd (gps_ecef DEBUG nav toe_sec t_sec state Ek_ptr m) = m.
Proof.
  destruct (gps_ecef_cases DEBUG nav toe_sec t_sec state Ek_ptr m)
    as [(_ & _ & ->)|[(tk & _ & _ & ->)|(tk & E & _ & _ & ->)]];
    simpl; intro H; [reflexivity | reflexivity | contradiction].
Qed.

(** C10. With [Ein] supplied [gps_dtsv] returns 0, whatever the frame and
    [dt]: the bias written has [*Ein] for eccentric anomaly, and the
    fields 5 and 6 (Delta n and M0), which only the solver reads, have no
    part in it. *)
Theorem gps_dtsv_with_Ein nav (dt : D) (dt_sv p : addr) m :
  let dt' := gps_dtsv_wrap dt in
  gps_dtsv nav dt dt_sv (Some p) m =
    (0%Z,
     store m dt_sv
       (data nav 0 + data nav 1 * dt' + data nav 2 * dt' * dt'
        + F_CLOCK * (data nav 8 * data nav 10 * std_sin (m p)))) /\
  (forall M0 Dn,
     gps_dtsv (set_data (set_data nav 6 M0) 5 Dn) dt dt_sv (Some p) m =
     gps_dtsv nav dt dt_sv (Some p) m).
Proof.
  intro dt'. split; [reflexivity|].
  intros M0 Dn. unfold gps_dtsv, gps_dtsv_Ek, gps_dtsv_bias. cbv zeta.
  rewrite !data_set_data_other by discriminate. reflexivity.
Qed.

End Claims.

(** ** The routines in exact real arithmetic *)

Section RealClaims.

Local Open Scope R_scope.

Implicit Types (nav : NavDataFrame R (Z * R)).

Lemma mean_anomaly_frame (toc : Z * R) (Dn M0 e sqrtA tk : R) :
  tk = 0 -> mean_anomaly (gps_frame toc Dn M0 e sqrtA) tk = M0.
Proof. intros ->. unfold mean_anomaly. cbn. ring. Qed.

Lemma gps_dtsv_wrap_small (dt : R) :
  -302400 <= dt <= 302400 -> gps_dtsv_wrap dt = dt.
Proof.
  intro H. rewrite gps_dtsv_wrap_real.
  destruct (Rgt_dec dt 302400); [lra|].
  destruct (Rlt_dec dt (-302400)); [lra | reflexivity].
Qed.

(** What [gps_dtsv] writes, as the formula of IS-GPS-200 reads. *)
Lemma gps_dtsv_bias_real nav (dt Ek : R) :
  gps_dtsv_bias nav dt Ek =
  data nav 0 + data nav 1 * dt + data nav 2 * dt ^ 2
  + -4.442807633e-10 * data nav 8 * data nav 10 * sin Ek.
Proof. unfold gps_dtsv_bias. rewrite F_CLOCK_real. cbn. ring. Qed.

(** C5, as amended. A [dt] up to a week beyond the half week (from -907200
    to -302400, both excluded, or from 302400, excluded, to 907200) is
    brought into the half week, -302400 excluded and 302400 included, by
    one week added or subtracted. *)
Theorem gps_dtsv_wrap_one_week (dt : R) :
  -907200 < dt < -302400 \/ 302400 < dt <= 907200 ->
  -302400 < gps_dtsv_wrap dt <= 302400 /\
  exists k : Z, (k = 1 \/ k = -1)%Z /\
    gps_dtsv_wrap dt = dt + IZR k * 604800.
Proof.
  intro H. rewrite gps_dtsv_wrap_real.
  destruct (Rgt_dec dt 302400) as [Hgt|Hgt].
  - split; [lra|]. exists (-1)%Z. split; [lia | lra].
  - destruct (Rlt_dec dt (-302400)) as [Hlt|Hlt]; [|lra].
    split; [lra|]. exists 1%Z. split; [lia | lra].
Qed.

(** For every [dt] the wrap moves by one week or not at all. *)
Lemma gps_dtsv_wrap_shift (dt : R) :
  exists k : Z, (-1 <= k <= 1)%Z /\ gps_dtsv_wrap dt = dt + IZR k * 604800.
Proof.
  rewrite gps_dtsv_wrap_real.
  destruct (Rgt_dec dt 302400); [exists (-1)%Z; split; [lia | lra]|].
  destruct (Rlt_dec dt (-302400)); [exists 1%Z | exists 0%Z];
    (split; [lia | lra]).
Qed.

End RealClaims.

(** ** A thousand passes

    Between 0 and 1 the sine is close to the identity; with [e = 0.99] and
    a small [M] the differences of successive iterates shrink by a factor
    between [e (1 - eta^2)] and [e] a pass, where [eta = M / (1 - e)]
    bounds the iterates. *)

Section SlowConvergence.

Local Open Scope R_scope.

Lemma sin_approx_1 (h : R) : sin_approx h 1 = h - h ^ 3 / 6.
Proof. unfold sin_approx, sin_term, sum_f_R0. simpl. field. Qed.

Lemma cos_approx_1 (c : R) : cos_approx c 1 = 1 - c ^ 2 / 2.
Proof. unfold cos_approx, cos_term, sum_f_R0. simpl. field. Qed.

Lemma sin_small (h : R) : 0 <= h <= 1 -> h - h ^ 3 / 6 <= sin h <= h.
Proof.
  intros [H0 H1]. pose proof PI2_1 as Hpi. split.
  - rewrite <- sin_approx_1.
    apply (proj1 (sin_bound h 0 H0 ltac:(lra))).
  - destruct (Req_dec h 0) as [->|Hne]; [rewrite sin_0; lra|].
    left. apply sin_lt_x. lra.
Qed.

Lemma cos_small (c : R) : 0 <= c <= 1 -> 1 - c ^ 2 / 2 <= cos c <= 1.
Proof.
  intros [H0 H1]. pose proof PI2_1 as Hpi. split.
  - rewrite <- cos_approx_1.
    apply (proj1 (cos_bound c 0 ltac:(lra) ltac:(lra))).
  - apply COS_bound.
Qed.

Lemma sin_diff_bounds (a b eta : R) :
  0 <= a <= b -> b <= eta -> eta <= 1 ->
  (b - a) * (1 - eta ^ 2) <= sin b - sin a <= b - a.
Proof.
  intros [Ha Hab] Hb Heta. rewrite form4.
  set (c := (b + a) / 2). set (h := (b - a) / 2).
  assert (Hc : 0 <= c <= eta) by (unfold c; lra).
  assert (Hh : 0 <= h <= eta / 2) by (unfold h; lra).
  destruct (@sin_small h ltac:(lra)) as [Hs1 Hs2].
  destruct (@cos_small c ltac:(lra)) as [Hc1 Hc2].
  replace (b - a) with (2 * h) by (unfold h; field).
  assert (Hcc : c * c <= eta * eta) by nra.
  assert (Hhh : h * h <= eta * eta / 4) by nra.
  assert (Hee : eta * eta <= 1) by nra.
  simpl pow in *. rewrite !Rmult_1_r in *.
  assert (Hc0 : 1 - eta * eta / 2 <= cos c) by lra.
  assert (Hs0 : h * (1 - eta * eta / 24) <= sin h) by nra.
  assert (Hsin0 : 0 <= sin h) by nra.
  split.
  - assert (H1 : (1 - eta * eta / 2) * (h * (1 - eta * eta / 24))
                 <= cos c * sin h).
    { apply Rmult_le_compat; nra. }
    nra.
  - assert (H1 : cos c * sin h <= 1 * h).
    { apply Rmult_le_compat; lra. }
    lra.
Qed.

Lemma pow_le_1_decr (x : R) (j n : nat) :
  0 <= x <= 1 -> (j <= n)%nat -> x ^ n <= x ^ j.
Proof.
  intros Hx Hjn. induction Hjn as [|n Hjn IH]; [lra|].
  assert (H0 : 0 <= x ^ n) by (apply pow_le; lra).
  simpl. nra.
Qed.

Lemma bernoulli_below (y : R) (n : nat) :
  0 <= y <= 1 -> 1 - INR n * y <= (1 - y) ^ n.
Proof.
  intro Hy. induction n as [|n IH].
  - simpl. lra.
  - rewrite S_INR.
    assert (H0 : 0 <= (1 - y) ^ n) by (apply pow_le; lra).
    assert (Hn : 0 <= INR n) by apply pos_INR.
    simpl. nra.
Qed.

Section SlowRun.

Variables (M q eta : R).
Hypothesis HM : 0 < M.
Hypothesis Hq : 0 < q < 1.
Hypothesis Heta : eta * (1 - q) = M.
Hypothesis Heta1 : eta <= 1.

Let E := kepler_E M q.
Let d0 := sin M * q.

Lemma slow_eta : M <= eta.
Proof. nra. Qed.

Lemma slow_d0 : q * (M - M ^ 3 / 6) <= d0 <= q * M.
Proof.
  pose proof slow_eta as He.
  destruct (@sin_small M ltac:(lra)) as [H1 H2]. unfold d0. nra.
Qed.

Lemma slow_step (k : nat) :
  M <= E k /\ E k <= E (S k) /\ E (S k) <= eta /\
  d0 * (q * (1 - eta ^ 2)) ^ k <= E (S k) - E k /\
  E (S k) - E k <= d0 * q ^ k.
Proof.
  pose proof slow_eta as He. pose proof slow_d0 as [Hd1 Hd2].
  assert (Hd0 : 0 <= d0).
  { destruct (@sin_small M ltac:(lra)) as [H1 _].
    assert (0 <= M - M ^ 3 / 6) by (simpl; nra). unfold d0. nra. }
  assert (Hx : 0 <= q * (1 - eta ^ 2) <= 1) by (simpl; nra).
  induction k as [|k IH].
  - unfold E. rewrite kepler_E_S. cbn [kepler_E]. fold d0.
    simpl pow. split; [lra|]. split; [lra|]. split; [nra|]. lra.
  - destruct IH as (H1 & H2 & H3 & H4 & H5).
    assert (HE : E (S (S k)) - E (S k) = q * (sin (E (S k)) - sin (E k))).
    { unfold E. rewrite !kepler_E_S. ring. }
    destruct (@sin_diff_bounds (E k) (E (S k)) eta) as [Hlo Hhi];
      [lra | lra | lra |].
    assert (Ha : 0 <= (q * (1 - eta ^ 2)) ^ k) by (apply pow_le; lra).
    assert (Hb : 0 <= q ^ k) by (apply pow_le; lra).
    assert (Hdk : 0 <= E (S k) - E k) by nra.
    assert (Hlo' : q * (1 - eta ^ 2) * (E (S k) - E k)
                   <= E (S (S k)) - E (S k)) by (rewrite HE; nra).
    assert (Hhi' : E (S (S k)) - E (S k) <= q * (E (S k) - E k))
      by (rewrite HE; nra).
    assert (Hx1 : 0 <= 1 - eta ^ 2) by (simpl; nra).
    split; [lra|]. split; [nra|]. split.
    + assert (Hs : sin (E (S k)) <= E (S k))
        by (apply sin_small; lra).
      assert (HS : E (S (S k)) = sin (E (S k)) * q + M)
        by (unfold E; apply kepler_E_S).
      rewrite HS. nra.
    + split.
      * change ((q * (1 - eta ^ 2)) ^ S k)
          with (q * (1 - eta ^ 2) * (q * (1 - eta ^ 2)) ^ k).
        apply Rle_trans with (2 := Hlo').
        assert (Hq0 : 0 <= q * (1 - eta ^ 2)) by lra.
        nra.
      * change (q ^ S k) with (q * q ^ k).
        apply Rle_trans with (1 := Hhi'). nra.
Qed.

End SlowRun.

Lemma slow_pow_bounds : 2e-5 <= slow_e ^ 1000 <= 99 / 100.
Proof.
  unfold slow_e. split.
  - change 1000%nat with (10 * 10 * 10)%nat. rewrite !pow_mult.
    assert (H1 : 9 / 10 <= (99 / 100) ^ 10) by (simpl; lra).
    assert (H2 : 34 / 100 <= (9 / 10) ^ 10) by (simpl; lra).
    assert (H3 : 2e-5 <= (34 / 100) ^ 10) by (simpl; lra).
    apply Rle_trans with (1 := H3). apply pow_incr. split; [lra|].
    apply Rle_trans with (1 := H2). apply pow_incr. lra.
  - replace (99 / 100) with ((99 / 100) ^ 1) at 2 by (simpl; lra).
    apply pow_le_1_decr; [lra | lia].
Qed.

Lemma slow_M_pow : slow_M * slow_e ^ 1000 = 995e-17.
Proof.
  unfold slow_M, slow_e. rewrite Rmult_assoc, <- Rpow_mult_distr.
  replace (100 / 99 * (99 / 100)) with 1 by field.
  rewrite pow1. ring.
Qed.

Lemma slow_M_bounds : 1e-14 < slow_M <= 5e-10.
Proof.
  pose proof slow_pow_bounds as [Hp1 Hp2]. pose proof slow_M_pow as Hc.
  set (p := slow_e ^ 1000) in *. clearbody p.
  assert (H0 : 0 < slow_M).
  { unfold slow_M. apply Rmult_lt_0_compat; [lra|]. apply pow_lt. lra. }
  split; nra.
Qed.

Lemma slow_eta_facts :
  0 < slow_M /\ 0 < slow_e < 1 /\
  100 * slow_M * (1 - slow_e) = slow_M /\ 100 * slow_M <= 1.
Proof.
  pose proof slow_M_bounds as [H1 H2]. unfold slow_e.
  repeat split; lra.
Qed.

Lemma slow_first_differences (k : nat) :
  (k <= 998)%nat ->
  1e-14 < kepler_E slow_M slow_e (S k) - kepler_E slow_M slow_e k.
Proof.
  intro Hk.
  destruct slow_eta_facts as (HM & Hq & Heta & Heta1).
  destruct (@slow_step slow_M slow_e (100 * slow_M) HM Hq Heta Heta1 k) as (_ & _ & _ & Hlo & _).
  destruct (@slow_d0 slow_M slow_e (100 * slow_M) HM Hq Heta Heta1) as [Hd0 _].
  apply Rlt_le_trans with (2 := Hlo).
  pose proof slow_M_bounds as [HM1 HM2]. pose proof slow_M_pow as Hc.
  set (eta := 100 * slow_M) in *.
  assert (Heta2 : 0 <= eta ^ 2 <= 1e-14) by (unfold eta; simpl; nra).
  assert (Hx : 0 <= slow_e * (1 - eta ^ 2) <= 1)
    by (clear - Heta2; unfold slow_e; lra).
  assert (HA : slow_M * (1 - 1e-10) <= slow_M - slow_M ^ 3 / 6).
  { assert (Hsq : slow_M * slow_M <= 1e-10) by nra.
    assert (Hcu : slow_M * (slow_M * slow_M) <= slow_M * 1e-10)
      by (apply Rmult_le_compat_l; lra).
    simpl. lra. }
  apply Rlt_le_trans
    with (sin slow_M * slow_e * (slow_e * (1 - eta ^ 2)) ^ 998).
  2:{ apply Rmult_le_compat_l.
      - apply Rle_trans with (2 := Hd0). unfold slow_e. lra.
      - apply pow_le_1_decr; [exact Hx | exact Hk]. }
  rewrite Rpow_mult_distr.
  pose proof (@bernoulli_below (eta ^ 2) 998 ltac:(lra)) as Hb.
  rewrite INR_IZR_INZ in Hb. change (Z.of_nat 998) with 998%Z in Hb.
  change (slow_e ^ 1000) with (slow_e * (slow_e * slow_e ^ 998)) in Hc.
  assert (Hr : 0 <= slow_e ^ 998)
    by (apply pow_le; clear; unfold slow_e; lra).
  set (r := slow_e ^ 998) in *. set (B := (1 - eta ^ 2) ^ 998) in *.
  clearbody r B.
  assert (HB : 1 - 1e-10 <= B) by lra.
  unfold slow_e in *.
  assert (Hu : slow_M * r = 995e-17 * (100 / 99) * (100 / 99)) by lra.
  assert (Hd : 99 / 100 * (slow_M * (1 - 1e-10)) <= sin slow_M * (99 / 100))
    by lra.
  apply Rlt_le_trans
    with (99 / 100 * (slow_M * (1 - 1e-10)) * (r * (1 - 1e-10))).
  - replace (99 / 100 * (slow_M * (1 - 1e-10)) * (r * (1 - 1e-10)))
      with (99 / 100 * (1 - 1e-10) * (1 - 1e-10) * (slow_M * r)) by ring.
    rewrite Hu. lra.
  - apply Rmult_le_compat; nra.
Qed.

Lemma slow_last_difference :
  0 <= kepler_E slow_M slow_e 1000 - kepler_E slow_M slow_e 999 <= 1e-14.
Proof.
  destruct slow_eta_facts as (HM & Hq & Heta & Heta1).
  destruct (@slow_step slow_M slow_e (100 * slow_M) HM Hq Heta Heta1 999) as (_ & Hinc & _ & _ & Hhi).
  destruct (@slow_d0 slow_M slow_e (100 * slow_M) HM Hq Heta Heta1) as [_ Hd0].
  pose proof slow_M_pow as Hc.
  change (slow_e ^ 1000) with (slow_e * slow_e ^ 999) in Hc.
  assert (Hr : 0 <= slow_e ^ 999)
    by (apply pow_le; clear; unfold slow_e; lra).
  set (r := slow_e ^ 999) in *. clearbody r.
  split; [lra|]. apply Rle_trans with (1 := Hhi).
  apply Rle_trans with (slow_e * slow_M * r); [|nra].
  apply Rmult_le_compat_r; [exact Hr | exact Hd0].
Qed.

Lemma slow_tests :
  (forall j, (j <= 999)%nat -> kepler_test slow_M slow_e j = true) /\
  kepler_test slow_M slow_e 1000 = false.
Proof.
  split.
  - intros j Hj. apply kepler_test_real. destruct j as [|j].
    + pose proof slow_M_bounds as [HM _]. cbn.
      replace (slow_M - 0) with slow_M by lra. rewrite Rabs_pos_eq; lra.
    + cbn [kepler_Ek].
      pose proof (@slow_first_differences j ltac:(lia)) as Hd.
      cbn [fsub Rreal]. rewrite Rabs_pos_eq; lra.
  - apply kepler_test_real_false. cbn [kepler_Ek fsub Rreal].
    pose proof slow_last_difference as Hd. rewrite Rabs_pos_eq; lra.
Qed.

End SlowConvergence.

(** ** Runs *)

Section Runs.

Local Open Scope R_scope.

Lemma kepler_solve_small (Mk e : R) :
  Rabs Mk <= 1e-14 -> kepler_solve Mk e = inr Mk.
Proof.
  intro Hle. apply (@kepler_solve_ok R _ _ Mk e 0%nat).
  - lia.
  - intros j Hj. lia.
  - apply kepler_test_real_false. cbn.
    replace (Mk - 0) with Mk by lra. exact Hle.
Qed.

Lemma spec_KeplerSolver_from_first (n : nat) (M e : R) :
  Rabs (e * sin M) <= 1e-14 ->
  spec_KeplerSolver_from (S n) M e M = inr (M + e * sin M).
Proof.
  intro Hle. cbn [spec_KeplerSolver_from].
  replace (M + e * sin M - M) with (e * sin M) by ring.
  destruct (Rle_dec _ _); [reflexivity | contradiction].
Qed.

Lemma spec_KeplerSolver_first (M e : R) :
  Rabs (e * sin M) <= 1e-14 -> spec_KeplerSolver M e = inr (M + e * sin M).
Proof. apply (spec_KeplerSolver_from_first 999). Qed.

(** The solver of the specification stops at the first step that meets
    the tolerance. *)
Lemma spec_KeplerSolver_run (M e : R) (n : nat) :
  forall (k fuel : nat),
  (forall j, (j < n)%nat ->
     Rabs (kepler_E M e (S (k + j)) - kepler_E M e (k + j)) > 1e-14) ->
  Rabs (kepler_E M e (S (k + n)) - kepler_E M e (k + n)) <= 1e-14 ->
  (n < fuel)%nat ->
  spec_KeplerSolver_from fuel M e (kepler_E M e k)
  = inr (kepler_E M e (S (k + n))).
Proof.
  induction n as [|n IH]; intros k fuel Hbefore Hat Hfuel;
    (destruct fuel as [|fuel]; [lia|]); cbn [spec_KeplerSolver_from];
    replace (M + e * sin (kepler_E M e k)) with (kepler_E M e (S k))
      by (rewrite kepler_E_S; ring).
  - rewrite Nat.add_0_r in Hat.
    destruct (Rle_dec _ _); [now rewrite Nat.add_0_r | contradiction].
  - pose proof (Hbefore 0%nat ltac:(lia)) as H0. rewrite Nat.add_0_r in H0.
    destruct (Rle_dec _ _) as [Hle|_]; [lra|].
    replace (k + S n)%nat with (S k + n)%nat by lia.
    apply IH; [|now replace (S k + n)%nat with (k + S n)%nat by lia | lia].
    intros j Hj. replace (S k + j)%nat with (k + S j)%nat by lia.
    apply Hbefore. lia.
Qed.

(** With [slow_e] and [slow_M] the tolerance is met at the thousandth
    pass: the solver of the specification succeeds there, the loop of the
    source is left with [i = 1000] and 1 is returned. *)
Lemma kepler_solve_thousandth_pass :
  kepler_solve slow_M slow_e = inl 1%Z /\
  spec_KeplerSolver slow_M slow_e = inr (kepler_E slow_M slow_e 1000).
Proof.
  split.
  - apply kepler_solve_fail. apply slow_tests.
  - apply (@spec_KeplerSolver_run slow_M slow_e 999 0 1000).
    + intros j Hj. pose proof (@slow_first_differences j ltac:(lia)) as Hd.
      cbn [Nat.add]. rewrite Rabs_pos_eq; lra.
    + pose proof slow_last_difference as Hd.
      cbn [Nat.add]. rewrite Rabs_pos_eq; lra.
    + lia.
Qed.

Lemma Rtrunc_0 : Rtrunc 0 = 0%Z.
Proof.
  unfold Rtrunc. destruct (Rle_dec 0 0); [|lra].
  symmetry. apply Int_part_spec. lra.
Qed.

(** The frames have ToE at second 0 of week 0, which is day 44244. *)
Lemma gps_stateNclock_secs_frame (toc : Z * R) (Dn M0 e sqrtA : R) :
  gps_stateNclock_secs (gps_frame toc Dn M0 e sqrtA) (44244%Z, 0) = (0, 0).
Proof.
  unfold gps_stateNclock_secs, gps__toe2date.
  change (data (gps_frame toc Dn M0 e sqrtA) 21) with 0.
  change (data (gps_frame toc Dn M0 e sqrtA) 11) with 0.
  unfold static_cast_int, static_cast_long, static_cast_to.
  cbn [trunc Rreal]. rewrite Rtrunc_0. reflexivity.
Qed.

Lemma mean_anomaly_frame_late (tk : R) :
  mean_anomaly frame_late tk = PI / 2 * tk.
Proof.
  unfold mean_anomaly, frame_late. cbn [data gps_frame data__ nth].
  cbn [fadd fmul fdiv fsub std_sqrt Rreal].
  replace (mi_gps / (1 * 1 * (1 * 1) * (1 * 1))) with (mi_gps (D := R))
    by (field).
  ring.
Qed.

Lemma gps_ecef_two_cycle (state : addr) (Ek_ptr : option addr) (m : mem R) :
  gps_ecef false frame_two_cycle 0 0 state Ek_ptr m = (1%Z, m).
Proof.
  apply gps_ecef_unsolved with (tk := 0 - 0); [reflexivity|].
  unfold frame_two_cycle. rewrite mean_anomaly_frame by ring.
  apply kepler_solve_two_cycle.
Qed.

(** C2: the solver of the source is not the solver of the specification.
    With [M = 1e-14] and [e = 1/2] the loop makes no pass (test 0 compares
    [M] with 0) and [M] is returned, where the specification makes one step
    and returns [M + e sin M]. With [slow_M] and [slow_e] the source
    returns 1 and the specification succeeds at its thousandth step. *)
Lemma kepler_solve_differs_from_spec :
  kepler_solve 1e-14 (1 / 2) <> spec_KeplerSolver 1e-14 (1 / 2) /\
  kepler_solve slow_M slow_e <> spec_KeplerSolver slow_M slow_e.
Proof.
  split.
  - assert (Hsin : 0 < sin 1e-14 < 1e-14).
    { pose proof PI2_1 as Hpi. split.
      - apply sin_gt_0; lra.
      - apply sin_lt_x. lra. }
    rewrite kepler_solve_small by (rewrite Rabs_pos_eq; lra).
    rewrite spec_KeplerSolver_first by (rewrite Rabs_pos_eq; lra).
    intro Heq. injection Heq as Heq. lra.
  - destruct kepler_solve_thousandth_pass as [-> ->]. discriminate.
Qed.

(** C5: a [dt] of 1000000 s is outside the half week and so is what the
    wrap makes of it, 395200 s. *)
Lemma gps_dtsv_wrap_two_weeks :
  ~ (-302400 < 1000000 <= 302400) /\
  gps_dtsv_wrap 1000000 = 395200 /\
  ~ (-302400 < gps_dtsv_wrap 1000000 <= 302400).
Proof.
  assert (H : gps_dtsv_wrap 1000000 = 395200).
  { rewrite gps_dtsv_wrap_real. destruct (Rgt_dec _ _); lra. }
  rewrite H. repeat split; lra.
Qed.

(** C6: with an eccentricity of 1 and [Mk = 0] both routines return 0. *)
Lemma parabolic_orbit_solved :
  1 <= data frame_parabolic 8 /\
  fst (gps_ecef false frame_parabolic 0 0 0%Z None mem_zero) = 0%Z /\
  fst (gps_dtsv frame_parabolic 0 7%Z None mem_zero) = 0%Z.
Proof.
  assert (Hsolve : forall tk, tk = 0 ->
            kepler_solve (mean_anomaly frame_parabolic tk)
              (data frame_parabolic 8) = inr 0).
  { intros tk Htk. unfold frame_parabolic.
    rewrite mean_anomaly_frame by exact Htk.
    apply kepler_solve_small. rewrite Rabs_R0. lra. }
  split; [cbn; lra|]. split.
  - rewrite (@gps_ecef_solved R _ _ _ false frame_parabolic 0 0 (0 - 0) 0
               0%Z None mem_zero); [reflexivity | reflexivity |].
    apply Hsolve. ring.
  - rewrite (@gps_dtsv_solved R _ _ _ frame_parabolic 0 0 7%Z mem_zero);
      [reflexivity|].
    apply Hsolve. apply gps_dtsv_wrap_small. lra.
Qed.

(** The hypotheses of the theorems above hold somewhere. *)

Lemma kepler_solve_first_failing_test_witness :
  kepler_solve 1 0 = inr (kepler_E 1 0 1) /\
  kepler_solve (PI / 2) (PI / 2) = inl 1%Z.
Proof.
  split.
  - apply (proj1 (kepler_solve_first_failing_test (D := R) 1 0) 1%nat).
    + lia.
    + intros j Hj. assert (j = 0%nat) as -> by lia.
      apply kepler_test_real. cbn. replace (1 - 0) with 1 by lra.
      rewrite Rabs_R1. lra.
    + apply kepler_test_real_false. cbn.
      replace (sin 1 * 0 + 1 - 1) with 0 by ring. rewrite Rabs_R0. lra.
  - apply (proj1 (proj2 (kepler_solve_first_failing_test (D := R)
                           (PI / 2) (PI / 2)))).
    intros j _. apply kepler_test_two_cycle.
Defined.

Lemma gps_dtsv_wrap_one_week_witness :
  (-907200 < 400000 < -302400 \/ 302400 < 400000 <= 907200) /\
  -302400 < gps_dtsv_wrap 400000 <= 302400 /\
  exists k : Z, (k = 1 \/ k = -1)%Z /\
    gps_dtsv_wrap 400000 = 400000 + IZR k * 604800.
Proof.
  assert (H : -907200 < 400000 < -302400 \/ 302400 < 400000 <= 907200)
    by (right; lra).
  split; [exact H|]. exact (@gps_dtsv_wrap_one_week 400000 H).
Defined.

Lemma gps_stateNclock_propagates_witness :
  gps_stateNclock false frame_two_cycle (44244%Z, 0) 0%Z 7%Z mem_zero
    = (1%Z, mem_zero) /\
  gps_stateNclock false frame_late (44244%Z, 0) 0%Z 7%Z mem_zero
    = (1%Z, snd (gps_ecef false frame_late 0 0 0%Z None mem_zero)).
Proof.
  split.
  - pose proof (gps_stateNclock_propagates (D := R) false frame_two_cycle
                  (44244%Z, 0) 0%Z 7%Z mem_zero) as H.
    unfold frame_two_cycle in H at 1.
    rewrite gps_stateNclock_secs_frame in H.
    apply (proj1 H (0 - 0) 1%Z); [reflexivity|].
    unfold frame_two_cycle. rewrite mean_anomaly_frame by ring.
    apply kepler_solve_two_cycle.
  - pose proof (gps_stateNclock_propagates (D := R) false frame_late
                  (44244%Z, 0) 0%Z 7%Z mem_zero) as H.
    unfold frame_late in H at 1.
    rewrite gps_stateNclock_secs_frame in H.
    apply (proj2 H (0 - 0) 0 1%Z).
    + reflexivity.
    + rewrite mean_anomaly_frame_late.
      replace (PI / 2 * (0 - 0)) with 0 by ring.
      apply kepler_solve_small. rewrite Rabs_R0. lra.
    + rewrite mean_anomaly_frame_late.
      assert (Hdt : delta_sec_fractional (44244%Z, 0) (toc__ frame_late)
                    = 1) by (cbn; lra).
      rewrite Hdt, gps_dtsv_wrap_small by lra.
      replace (PI / 2 * 1) with (PI / 2) by ring.
      apply kepler_solve_two_cycle.
Defined.

Lemma gps_ecef_error_writes_nothing_witness :
  fst (gps_ecef false frame_two_cycle 0 0 0%Z (Some 10%Z) mem_zero) <> 0%Z /\
  snd (gps_ecef false frame_two_cycle 0 0 0%Z (Some 10%Z) mem_zero)
    = mem_zero.
Proof.
  assert (H : fst (gps_ecef false frame_two_cycle 0 0 0%Z (Some 10%Z)
                     mem_zero) <> 0%Z)
    by (rewrite gps_ecef_two_cycle; discriminate).
  split; [exact H|].
  exact (@gps_ecef_error_writes_nothing R _ _ _ false frame_two_cycle 0 0
           0%Z (Some 10%Z) mem_zero H).
Defined.

End Runs.

(** ** IEEE 754 double precision *)

Section Binary64.

Local Open Scope dbl_scope.

Import PrimFloat.

(** The literals of the source are the binary64 numbers nearest to them. *)
Lemma b64_literals :
  mi_gps = 398600500000000%float /\
  OMEGAE_dot = 0x1.31da7d7cb8d5bp-14%float /\
  SEC_IN_WEEK = 604800%float /\
  F_CLOCK = (-0x1.e87deae177a99p-32)%float /\
  LIMIT = 0x1.6849b86a12b9bp-47%float.
Proof. repeat split; vm_compute; reflexivity. Qed.

(** C1. A difference [t_sec - toe_sec] of 400000 s is beyond the half
    week. Built without [DEBUG], [gps_ecef] uses it as it is, in the mean
    anomaly and in the coordinates; built with [DEBUG] it returns -1. The
    wrap of [gps_dtsv] makes -204800 s of it. *)
Theorem gps_ecef_tk_week_boundary (libm : Libm PrimFloat.float) (T : Type)
  (nav : NavDataFrame PrimFloat.float T) (state : addr) (Ek_ptr : option addr)
  (m : mem PrimFloat.float) :
  let toe_sec : PrimFloat.float := lit 0 0 in
  let t_sec : PrimFloat.float := lit 400000 0 in
  (t_sec - toe_sec >? lit 302400 0) = true /\
  gps_ecef_tk false toe_sec t_sec = inr t_sec /\
  gps_ecef false nav toe_sec t_sec state Ek_ptr m =
    match kepler_solve (mean_anomaly nav t_sec) (data nav 8) with
    | inl err => (err, m)
    | inr E =>
        (0%Z,
         let '(x, y, z) := gps_ecef_xyz nav t_sec E in
         store (store (store (store_opt m Ek_ptr E) state x)
                  (state + 1)%Z y) (state + 2)%Z z)
    end /\
  gps_ecef true nav toe_sec t_sec state Ek_ptr m = ((-1)%Z, m) /\
  gps_dtsv_wrap t_sec = - lit 204800 0.
Proof.
  intros toe_sec t_sec.
  assert (Htk : gps_ecef_tk false toe_sec t_sec = inr t_sec)
    by (vm_compute; reflexivity).
  assert (Hdebug : gps_ecef_tk true toe_sec t_sec = inl (-1)%Z)
    by (vm_compute; reflexivity).
  split; [vm_compute; reflexivity|]. split; [exact Htk|].
  split; [|split; [|vm_compute; reflexivity]].
  - unfold gps_ecef. rewrite Htk. cbv zeta.
    destruct (kepler_solve (mean_anomaly nav t_sec) (data nav 8));
      [reflexivity|].
    destruct (gps_ecef_xyz nav t_sec _) as [[x y] z]. reflexivity.
  - unfold gps_ecef. rewrite Hdebug. reflexivity.
Qed.

(** The runs of the counterexamples are the same in double precision,
    whatever <cmath> computes: the loop of the solver makes no pass when
    [Mk] is 0, and 1000000 s are wrapped to 395200 s. *)
Lemma b64_kepler_solve_zero (libm : Libm PrimFloat.float) (e : PrimFloat.float) :
  kepler_solve (lit 0 0) e = inr (lit 0 0).
Proof.
  apply (@kepler_solve_ok PrimFloat.float _ _ (lit 0 0) e 0%nat).
  - lia.
  - intros j Hj. lia.
  - vm_compute. reflexivity.
Qed.

Lemma b64_gps_dtsv_wrap_two_weeks :
  gps_dtsv_wrap (lit 1000000 0 : PrimFloat.float) = lit 395200 0 /\
  ((lit 395200 0 : PrimFloat.float) >? lit 302400 0) = true.
Proof. split; vm_compute; reflexivity. Qed.

End Binary64.

(** * The rest of the routines *)

(** ** What is read and what is written, for every arithmetic *)

Section Outputs.

Context {D : Type} {arith : Arith D} {libm : Libm D}.
Context {T : Type} {datetime : DateTime D T}.
Local Open Scope dbl_scope.

Implicit Types (nav : NavDataFrame D T) (m : mem D).

Lemma store_same m (p : addr) (v : D) : store m p v p = v.
Proof. unfold store. now rewrite Z.eqb_refl. Qed.

Lemma store_other m (p q : addr) (v : D) : q <> p -> store m p v q = m q.
Proof. intro H. unfold store. now destruct (Z.eqb_spec q p). Qed.

(** The four stores of [gps_ecef], read at a cell that is none of
    theirs. *)
Lemma outputs_other m (state : addr) (Ek_ptr : option addr) (E x y z : D)
  (q : addr) :
  q <> state -> q <> (state + 1)%Z -> q <> (state + 2)%Z ->
  Ek_ptr <> Some q ->
  store (store (store (store_opt m Ek_ptr E) state x) (state + 1)%Z y)
    (state + 2)%Z z q = m q.
Proof.
  intros H0 H1 H2 HEk. rewrite !store_other by assumption.
  destruct Ek_ptr as [p|]; [|reflexivity].
  apply store_other. congruence.
Qed.

(** The same, read at [Ek_ptr]. *)
Lemma outputs_Ek m (state p : addr) (E x y z : D) :
  p <> state -> p <> (state + 1)%Z -> p <> (state + 2)%Z ->
  store (store (store (store_opt m (Some p) E) state x) (state + 1)%Z y)
    (state + 2)%Z z p = E.
Proof.
  intros H0 H1 H2. rewrite !store_other by assumption. apply store_same.
Qed.

Lemma gps_ecef_xyz_set_data nav (i : nat) (v tk E : D) :
  (i < 4 \/ 19 < i)%nat ->
  gps_ecef_xyz (set_data nav i v) tk E = gps_ecef_xyz nav tk E.
Proof.
  intro Hi. unfold gps_ecef_xyz.
  rewrite !data_set_data_other by lia. reflexivity.
Qed.

Lemma gps_dtsv_writes_only_dt_sv nav (dt : D) (dt_sv : addr)
  (Ein : option addr) m (q : addr) :
  q <> dt_sv -> snd (gps_dtsv nav dt dt_sv Ein m) q = m q.
Proof.
  intro Hq.
  destruct (gps_dtsv_cases nav dt dt_sv Ein m)
    as [(_ & _ & ->)|(Ek & _ & ->)]; cbn [snd]; [reflexivity|].
  now apply store_other.
Qed.

(** X1. [gps_ecef] writes to [state[0]], [state[1]], [state[2]] and
    [*Ek_ptr] and nowhere else, whatever it returns. *)
Theorem gps_ecef_writes_only_outputs (DEBUG : bool) nav (toe_sec t_sec : D)
  (state : addr) (Ek_ptr : option addr) m (q : addr) :
  q <> state -> q <> (state + 1)%Z -> q <> (state + 2)%Z ->
  Ek_ptr <> Some q ->
  snd (gps_ecef DEBUG nav toe_sec t_sec state Ek_ptr m) q = m q.
Proof.
  intros H0 H1 H2 HEk.
  destruct (gps_ecef_cases DEBUG nav toe_sec t_sec state Ek_ptr m)
    as [(_ & _ & ->)|[(tk & _ & _ & ->)|(tk & E & _ & _ & ->)]];
    try reflexivity.
  cbn [snd]. destruct (gps_ecef_xyz nav tk E) as [[x y] z].
  now apply outputs_other.
Qed.

(** X2. When [gps_ecef] returns 0 the solver has succeeded, the three
    cells of [state] hold the coordinates computed from the eccentric
    anomaly it returned, also when [Ek_ptr] points into [state], and
    [*Ek_ptr] holds that eccentric anomaly when it points elsewhere. *)
Theorem gps_ecef_outputs (DEBUG : bool) nav (toe_sec t_sec : D)
  (state : addr) (Ek_ptr : option addr) m :
  fst (gps_ecef DEBUG nav toe_sec t_sec state Ek_ptr m) = 0%Z ->
  exists tk E,
    gps_ecef_tk DEBUG toe_sec t_sec = inr tk /\
    kepler_solve (mean_anomaly nav tk) (data nav 8) = inr E /\
    let m' := snd (gps_ecef DEBUG nav toe_sec t_sec state Ek_ptr m) in
    (m' state, m' (state + 1)%Z, m' (state + 2)%Z) = gps_ecef_xyz nav tk E /\
    forall p, Ek_ptr = Some p ->
      p <> state -> p <> (state + 1)%Z -> p <> (state + 2)%Z -> m' p = E.
Proof.
  intro Hok.
  destruct (gps_ecef_cases DEBUG nav toe_sec t_sec state Ek_ptr m)
    as [(_ & _ & Heq)|[(tk & _ & _ & Heq)|(tk & E & Htk & Hsolve & Heq)]];
    rewrite Heq in Hok; try discriminate Hok.
  exists tk, E. split; [exact Htk|]. split; [exact Hsolve|].
  rewrite Heq. cbn [snd]. destruct (gps_ecef_xyz nav tk E) as [[x y] z].
  split.
  - rewrite store_other, store_other, store_same by lia.
    rewrite store_other, store_same by lia.
    rewrite store_same. reflexivity.
  - intros p -> H0 H1 H2. now apply outputs_Ek.
Qed.

(** X3. Built with [DEBUG], [gps_ecef] returns -1 and writes nothing when
    [t_sec - toe_sec] is below -302400 or above 302400, and does what the
    build without [DEBUG] does otherwise: the two wraps that follow the
    check never change [tk]. *)
Theorem gps_ecef_debug_build nav (toe_sec t_sec : D) (state : addr)
  (Ek_ptr : option addr) m :
  gps_ecef true nav toe_sec t_sec state Ek_ptr m =
  if (t_sec - toe_sec <? - lit 302400 0) || (t_sec - toe_sec >? lit 302400 0)
  then ((-1)%Z, m)
  else gps_ecef false nav toe_sec t_sec state Ek_ptr m.
Proof.
  unfold gps_ecef. rewrite gps_ecef_tk_debug, gps_ecef_tk_release.
  cbv zeta. destruct (_ || _); reflexivity.
Qed.

(** X4. [gps_ecef] reads the fields 4 to 19 of the data block and
    [gps_dtsv] the fields 0, 1, 2, 5, 6, 8 and 10: a change of any other
    field, or of the time of clock, changes nothing of what they return
    and write. *)
Theorem routines_read_their_fields (DEBUG : bool) nav (i : nat) (v : D)
  (toc : T) (toe_sec t_sec dt : D) (state dt_sv : addr)
  (Ek_ptr Ein : option addr) m :
  ((i < 4 \/ 19 < i)%nat ->
   gps_ecef DEBUG (set_data nav i v) toe_sec t_sec state Ek_ptr m =
   gps_ecef DEBUG nav toe_sec t_sec state Ek_ptr m) /\
  (~ In i [0; 1; 2; 5; 6; 8; 10]%nat ->
   gps_dtsv (set_data nav i v) dt dt_sv Ein m =
   gps_dtsv nav dt dt_sv Ein m) /\
  gps_ecef DEBUG (set_toc nav toc) toe_sec t_sec state Ek_ptr m =
  gps_ecef DEBUG nav toe_sec t_sec state Ek_ptr m /\
  gps_dtsv (set_toc nav toc) dt dt_sv Ein m = gps_dtsv nav dt dt_sv Ein m.
Proof.
  split; [|split; [|split]].
  - intro Hi. unfold gps_ecef.
    destruct (gps_ecef_tk DEBUG toe_sec t_sec) as [err|tk]; [reflexivity|].
    cbv zeta. rewrite mean_anomaly_set_data by lia.
    rewrite data_set_data_other by lia.
    destruct (kepler_solve _ _) as [err|E]; [reflexivity|].
    now rewrite gps_ecef_xyz_set_data.
  - apply gps_dtsv_set_data.
  - reflexivity.
  - reflexivity.
Qed.

(** X5. The eccentric anomaly that [gps_ecef] stores through [Ek_ptr]
    can stand for the one [gps_dtsv] would solve for: when the wrapped
    [dt] is the [tk] of [gps_ecef] (same epoch, same reference time),
    [gps_dtsv] with that pointer and [gps_dtsv] without return and write
    the same. *)
Theorem gps_dtsv_reuses_Ek (DEBUG : bool) nav (toe_sec t_sec tk dt : D)
  (state p dt_sv : addr) m :
  gps_ecef_tk DEBUG toe_sec t_sec = inr tk ->
  gps_dtsv_wrap dt = tk ->
  p <> state -> p <> (state + 1)%Z -> p <> (state + 2)%Z ->
  fst (gps_ecef DEBUG nav toe_sec t_sec state (Some p) m) = 0%Z ->
  let m' := snd (gps_ecef DEBUG nav toe_sec t_sec state (Some p) m) in
  gps_dtsv nav dt dt_sv (Some p) m' = gps_dtsv nav dt dt_sv None m'.
Proof.
  intros Htk Hwrap H0 H1 H2 Hok m'.
  destruct (gps_ecef_cases DEBUG nav toe_sec t_sec state (Some p) m)
    as [(_ & _ & Heq)|[(tk' & _ & _ & Heq)|(tk' & E & Htk' & Hsolve & Heq)]];
    rewrite Heq in Hok; try discriminate Hok.
  rewrite Htk in Htk'. injection Htk' as <-.
  assert (HEk : m' p = E).
  { unfold m'. rewrite Heq. cbn [snd].
    destruct (gps_ecef_xyz nav tk E) as [[x y] z]. now apply outputs_Ek. }
  unfold gps_dtsv, gps_dtsv_Ek. cbv zeta.
  now rewrite Hwrap, Hsolve, HEk.
Qed.

(** X6. [gps_stateNclock] returns 0 exactly when [gps_ecef] and then
    [gps_dtsv] do, and then leaves what the two calls in a row leave;
    whatever it returns, it writes to [state[0]], [state[1]], [state[2]]
    and [dt] and nowhere else. *)
Theorem gps_stateNclock_composes (DEBUG : bool) nav (t : T)
  (state dt : addr) m :
  let '(toe_sec, t_sec) := gps_stateNclock_secs nav t in
  let dti := delta_sec_fractional t (toc__ nav) in
  let r1 := gps_ecef DEBUG nav toe_sec t_sec state None m in
  let r2 := gps_dtsv nav dti dt None (snd r1) in
  let r := gps_stateNclock DEBUG nav t state dt m in
  (fst r = 0%Z <-> fst r1 = 0%Z /\ fst r2 = 0%Z) /\
  (fst r1 = 0%Z -> r = r2) /\
  (forall q, q <> state -> q <> (state + 1)%Z -> q <> (state + 2)%Z ->
     q <> dt -> snd r q = m q).
Proof.
  unfold gps_stateNclock.
  destruct (gps_stateNclock_secs nav t) as [toe_sec t_sec]. cbv zeta.
  assert (Hm1 : forall q, q <> state -> q <> (state + 1)%Z ->
                  q <> (state + 2)%Z ->
                  snd (gps_ecef DEBUG nav toe_sec t_sec state None m) q = m q).
  { intros q H0 H1 H2.
    destruct (gps_ecef_cases DEBUG nav toe_sec t_sec state None m)
      as [(_ & _ & ->)|[(tk & _ & _ & ->)|(tk & E & _ & _ & ->)]];
      try reflexivity.
    cbn [snd]. destruct (gps_ecef_xyz nav tk E) as [[x y] z].
    apply outputs_other; (assumption || discriminate). }
  destruct (gps_ecef DEBUG nav toe_sec t_sec state None m) as [s1 m1].
  cbn [fst snd] in *.
  pose proof (fun q => @gps_dtsv_writes_only_dt_sv nav
                         (delta_sec_fractional t (toc__ nav)) dt None m1 q)
    as Hm2.
  destruct (gps_dtsv nav (delta_sec_fractional t (toc__ nav)) dt None m1)
    as [s2 m2].
  cbn [fst snd] in *. unfold nonzero.
  destruct (Z.eqb_spec s1 0) as [->|Hs1]; cbn [negb].
  - destruct (Z.eqb_spec s2 0) as [->|Hs2]; cbn [negb fst snd].
    + split; [tauto|]. split; [reflexivity|].
      intros q H0 H1 H2 H3. rewrite Hm2 by exact H3. now apply Hm1.
    + split; [tauto|]. split; [reflexivity|].
      intros q H0 H1 H2 H3. rewrite Hm2 by exact H3. now apply Hm1.
  - cbn [fst snd]. split; [tauto|]. split; [contradiction|].
    intros q H0 H1 H2 _. now apply Hm1.
Qed.

(** Without [Ein], what [gps_dtsv] returns and writes is the same from
    every memory. *)
Lemma gps_dtsv_None_mem nav (dt : D) (dt_sv : addr) m1 m2 :
  fst (gps_dtsv nav dt dt_sv None m1) = fst (gps_dtsv nav dt dt_sv None m2) /\
  (fst (gps_dtsv nav dt dt_sv None m1) = 0%Z ->
   snd (gps_dtsv nav dt dt_sv None m1) dt_sv =
   snd (gps_dtsv nav dt dt_sv None m2) dt_sv).
Proof.
  unfold gps_dtsv, gps_dtsv_Ek. cbv zeta.
  destruct (kepler_solve _ _) as [err|E] eqn:Hsolve; cbn [fst snd].
  - pose proof (kepler_solve_status _ _ Hsolve) as ->.
    split; [reflexivity | discriminate].
  - split; [reflexivity|]. intros _. now rewrite !store_same.
Qed.

(** X8. The overload of [gps_dtsv] that takes an epoch gives the clock
    correction of [gps_stateNclock]: when the difference of the epoch to
    the time of clock, counted in the unit of [T], is its value in seconds
    (as it is for [T = seconds]), and [gps_ecef] succeeds, the two return
    the same status and, on status 0, the same value in [dt], also when
    [dt] is one of the cells of [state]. *)
Theorem gps_stateNclock_clock_is_gps_dtsv {deltasec : DeltaSec T}
  (DEBUG : bool) nav (t : T) (state dt : addr) m :
  of_long (delta_sec_underlying t (toc__ nav))
    = delta_sec_fractional t (toc__ nav) ->
  let '(toe_sec, t_sec) := gps_stateNclock_secs nav t in
  fst (gps_ecef DEBUG nav toe_sec t_sec state None m) = 0%Z ->
  let r := gps_stateNclock DEBUG nav t state dt m in
  let r' := gps_dtsv_epoch nav t dt m in
  fst r = fst r' /\ (fst r = 0%Z -> snd r dt = snd r' dt).
Proof.
  intro Hsec. unfold gps_stateNclock, gps_dtsv_epoch.
  destruct (gps_stateNclock_secs nav t) as [toe_sec t_sec]. cbv zeta.
  rewrite Hsec.
  destruct (gps_ecef DEBUG nav toe_sec t_sec state None m) as [s1 m1].
  cbn [fst]. intros ->. cbn [nonzero Z.eqb negb].
  pose proof (@gps_dtsv_None_mem nav (delta_sec_fractional t (toc__ nav))
                dt m1 m) as [Hfst Hsnd].
  destruct (gps_dtsv nav (delta_sec_fractional t (toc__ nav)) dt None m1)
    as [s2 m2].
  cbn [fst snd] in Hfst, Hsnd.
  assert (Hr : (if nonzero s2 then (s2, m2) else (s2, m2)) = (s2, m2))
    by (destruct (nonzero s2); reflexivity).
  rewrite Hr. cbn [fst snd]. split; [exact Hfst | exact Hsnd].
Qed.

End Outputs.

(** ** A cycle of the iteration *)

Section Cycle.

Context {D : Type} {arith : Arith D} {libm : Libm D}.
Local Open Scope dbl_scope.

Variables (Mk e : D) (k : nat).
Hypothesis cycle : kepler_E Mk e (S (S k)) = kepler_E Mk e k.

Lemma kepler_E_cycle (n : nat) :
  kepler_E Mk e (S (S (k + n))) = kepler_E Mk e (k + n).
Proof.
  induction n as [|n IH].
  - rewrite Nat.add_0_r. exact cycle.
  - rewrite Nat.add_succ_r. cbn [kepler_E] in *. now rewrite IH.
Qed.

Lemma kepler_test_cycle (n : nat) :
  kepler_test Mk e (S (S (S (k + n)))) = kepler_test Mk e (S (k + n)).
Proof.
  unfold kepler_test. cbn [kepler_Ek].
  rewrite (kepler_E_cycle n).
  pose proof (kepler_E_cycle (S n)) as H. rewrite Nat.add_succ_r in H.
  now rewrite H.
Qed.

Lemma kepler_tests_cycle :
  (forall j, (j <= S (S k))%nat -> kepler_test Mk e j = true) ->
  forall j, kepler_test Mk e j = true.
Proof.
  intros Hfirst j. induction j as [j IH] using lt_wf_ind.
  destruct (le_lt_dec j (S (S k))) as [Hle|Hgt]; [now apply Hfirst|].
  replace j with (S (S (S (k + (j - k - 3))))) by lia.
  rewrite kepler_test_cycle. apply IH. lia.
Qed.

End Cycle.

Section CycleOfTheRoutine.

Context {D : Type} {arith : Arith D} {libm : Libm D} {T : Type}.
Local Open Scope dbl_scope.

(** X18. When the iterates of the loop come back after two passes,
    [E_(k+2) = E_k], and the tests up to test [k + 2] hold, every test
    holds: the loop makes its 1001 passes and [gps_ecef] returns 1 and
    writes nothing. This is so for every arithmetic; in double precision
    it happens with an eccentricity as small as 0.001, between two
    neighbouring doubles above 64, which are more than the tolerance
    apart. *)
Theorem kepler_solve_cycle (DEBUG : bool) (nav : NavDataFrame D T)
  (toe_sec t_sec tk : D) (state : addr) (Ek_ptr : option addr) (m : mem D)
  (k : nat) :
  gps_ecef_tk DEBUG toe_sec t_sec = inr tk ->
  kepler_E (mean_anomaly nav tk) (data nav 8) (S (S k))
    = kepler_E (mean_anomaly nav tk) (data nav 8) k ->
  (forall j, (j <= S (S k))%nat ->
     kepler_test (mean_anomaly nav tk) (data nav 8) j = true) ->
  kepler_solve (mean_anomaly nav tk) (data nav 8) = inl 1%Z /\
  gps_ecef DEBUG nav toe_sec t_sec state Ek_ptr m = (1%Z, m).
Proof.
  intros Htk Hcycle Hfirst.
  assert (Hfail : kepler_solve (mean_anomaly nav tk) (data nav 8)
                  = inl 1%Z).
  { apply kepler_solve_fail. intros j _.
    now apply (@kepler_tests_cycle D _ _ (mean_anomaly nav tk)
                 (data nav 8) k). }
  split; [exact Hfail|].
  exact (@gps_ecef_unsolved D _ _ T DEBUG nav toe_sec t_sec tk state Ek_ptr
           m 1%Z Htk Hfail).
Qed.

End CycleOfTheRoutine.

(** ** The iteration in exact real arithmetic

    Where nothing is rounded each pass shrinks the step by the factor
    [e]. This gives the run of [gps_dtsv] below its eccentric anomaly; it
    says nothing of the loop in double precision, where the step can stay
    at one unit in the last place. *)

Section Convergence.

Local Open Scope R_scope.






End Convergence.

(** ** A week more or less *)

Section WeekShift.

Local Open Scope R_scope.
Context {T : Type} {datetime : DateTime R T}.
Implicit Types (nav : NavDataFrame R T).

(** X15. A [dt] that is beyond the half week by a week at most, and the
    same [dt] a week nearer, give the same result: [gps_dtsv] returns and
    writes the same for both. *)
Theorem gps_dtsv_week_shift nav (dt : R) (dt_sv : addr)
  (Ein : option addr) (m : mem R) :
  (302400 < dt <= 907200 ->
   gps_dtsv nav (dt - 604800) dt_sv Ein m = gps_dtsv nav dt dt_sv Ein m) /\
  (-907200 <= dt < -302400 ->
   gps_dtsv nav (dt + 604800) dt_sv Ein m = gps_dtsv nav dt dt_sv Ein m).
Proof.
  assert (Hw : forall a b, gps_dtsv_wrap a = gps_dtsv_wrap b ->
             gps_dtsv nav a dt_sv Ein m = gps_dtsv nav b dt_sv Ein m).
  { intros a b Hab. unfold gps_dtsv. cbv zeta. now rewrite Hab. }
  split; intro H; apply Hw; rewrite !gps_dtsv_wrap_real;
    repeat match goal with
           | |- context [Rgt_dec ?a ?b] => destruct (Rgt_dec a b)
           | |- context [Rlt_dec ?a ?b] => destruct (Rlt_dec a b)
           end; lra.
Qed.

End WeekShift.

(** ** Not-a-number fields, in IEEE 754 double precision *)

Section Binary64NaN.

Import PrimFloat.
Local Open Scope dbl_scope.

Lemma b64_add_nan_l (x : float) : fadd nan x = nan.
Proof.
  cbn [fadd binary64].
  rewrite <- (FloatAxioms.SF2Prim_Prim2SF (PrimFloat.add nan x)).
  rewrite FloatAxioms.add_spec. reflexivity.
Qed.

Lemma b64_mul_nan_r (x : float) : fmul x nan = nan.
Proof.
  cbn [fmul binary64].
  rewrite <- (FloatAxioms.SF2Prim_Prim2SF (PrimFloat.mul x nan)).
  rewrite FloatAxioms.mul_spec.
  change (FloatOps.Prim2SF nan) with SpecFloat.S754_nan.
  destruct (FloatOps.Prim2SF x); reflexivity.
Qed.

Lemma b64_sub_nan_l (x : float) : fsub nan x = nan.
Proof.
  cbn [fsub binary64].
  rewrite <- (FloatAxioms.SF2Prim_Prim2SF (PrimFloat.sub nan x)).
  rewrite FloatAxioms.sub_spec. reflexivity.
Qed.

Lemma b64_test_nan : (std_abs (nan : float) >? LIMIT) = false.
Proof. vm_compute. reflexivity. Qed.

(** A mean anomaly that is not a number stops the loop at once. *)
Lemma b64_kepler_solve_nan_M (libm : Libm float) (e : float) :
  kepler_solve nan e = inr nan.
Proof.
  apply (@kepler_solve_ok float _ _ nan e 0%nat).
  - lia.
  - intros j Hj. lia.
  - vm_compute. reflexivity.
Qed.

(** An eccentricity that is not a number stops it after one pass at
    most. *)
Lemma b64_kepler_solve_nan_e (libm : Libm float) (Mk : float) :
  kepler_solve Mk nan =
    inr (if std_abs (Mk - lit 0 0) >? LIMIT then nan else Mk).
Proof.
  destruct (std_abs (Mk - lit 0 0) >? LIMIT) eqn:H0.
  - assert (HE : kepler_E Mk nan 1 = nan).
    { cbn [kepler_E]. now rewrite b64_mul_nan_r, b64_add_nan_l. }
    rewrite (@kepler_solve_ok float _ _ Mk nan 1%nat).
    + now rewrite HE.
    + lia.
    + intros j Hj. assert (j = 0%nat) as -> by lia. exact H0.
    + unfold kepler_test. rewrite HE. cbn [kepler_Ek kepler_E].
      rewrite b64_sub_nan_l. exact b64_test_nan.
  - apply (@kepler_solve_ok float _ _ Mk nan 0%nat).
    + lia.
    + intros j Hj. lia.
    + exact H0.
Qed.

(** X17. A field that is not a number is no error. With NaN for the mean
    anomaly at reference time (field 6), or for the eccentricity
    (field 8), [gps_ecef] and [gps_dtsv] return 0, for every <cmath>,
    every other field and every time; in the first case the eccentric
    anomaly stored through [Ek_ptr] is NaN. *)
Theorem b64_nan_is_not_an_error (libm : Libm float) (T : Type) (toc : T)
  (a0 a1 a2 a3 a4 a5 a6 a7 : float) (rest : list float)
  (toe_sec t_sec dt : float) (state dt_sv : addr) (Ek_ptr : option addr)
  (m : mem float) :
  let nav_M0 :=
    {| toc__ := toc; data__ := [a0; a1; a2; a3; a4; a5; nan] ++ a7 :: rest |} in
  let nav_e :=
    {| toc__ := toc;
       data__ := [a0; a1; a2; a3; a4; a5; a6; a7; nan] ++ rest |} in
  fst (gps_ecef false nav_M0 toe_sec t_sec state Ek_ptr m) = 0%Z /\
  fst (gps_dtsv nav_M0 dt dt_sv None m) = 0%Z /\
  fst (gps_ecef false nav_e toe_sec t_sec state Ek_ptr m) = 0%Z /\
  fst (gps_dtsv nav_e dt dt_sv None m) = 0%Z /\
  (forall p, p <> state -> p <> (state + 1)%Z -> p <> (state + 2)%Z ->
     snd (gps_ecef false nav_M0 toe_sec t_sec state (Some p) m) p = nan).
Proof.
  intros nav_M0 nav_e.
  assert (HM : forall tk, mean_anomaly nav_M0 tk = nan).
  { intro tk. unfold mean_anomaly. cbv zeta.
    change (data nav_M0 6) with nan. apply b64_add_nan_l. }
  assert (H1 : forall tk, kepler_solve (mean_anomaly nav_M0 tk)
                            (data nav_M0 8) = inr nan).
  { intro tk. rewrite HM.
    exact (b64_kepler_solve_nan_M libm (data nav_M0 8)). }
  assert (H2 : forall tk, exists E,
             kepler_solve (mean_anomaly nav_e tk) (data nav_e 8) = inr E).
  { intro tk. change (data nav_e 8) with nan.
    rewrite (b64_kepler_solve_nan_e libm (mean_anomaly nav_e tk)).
    eauto. }
  split; [|split; [|split; [|split]]].
  - rewrite (@gps_ecef_solved float _ _ T false nav_M0 toe_sec t_sec
               (t_sec - toe_sec) nan state Ek_ptr m);
      [reflexivity | reflexivity | apply H1].
  - rewrite (@gps_dtsv_solved float _ _ T nav_M0 dt nan dt_sv m);
      [reflexivity | apply H1].
  - destruct (H2 (t_sec - toe_sec)) as [E HE].
    rewrite (@gps_ecef_solved float _ _ T false nav_e toe_sec t_sec
               (t_sec - toe_sec) E state Ek_ptr m);
      [reflexivity | reflexivity | exact HE].
  - destruct (H2 (gps_dtsv_wrap dt)) as [E HE].
    rewrite (@gps_dtsv_solved float _ _ T nav_e dt E dt_sv m);
      [reflexivity | exact HE].
  - intros p Hp0 Hp1 Hp2.
    rewrite (@gps_ecef_solved float _ _ T false nav_M0 toe_sec t_sec
               (t_sec - toe_sec) nan state (Some p) m);
      [| reflexivity | apply H1].
    cbn [snd]. destruct (gps_ecef_xyz _ _ _) as [[x y] z].
    now apply outputs_Ek.
Qed.

End Binary64NaN.

(** ** Runs of the rest *)

Section RunsOfTheRest.

Local Open Scope R_scope.

Lemma gps_ecef_circular_solved (state : addr) (Ek_ptr : option addr)
  (m : mem R) :
  fst (gps_ecef false frame_circular 0 0 state Ek_ptr m) = 0%Z.
Proof.
  rewrite (@gps_ecef_solved R _ _ _ false frame_circular 0 0 (0 - 0) 1
             state Ek_ptr m); [reflexivity | reflexivity |].
  unfold frame_circular. rewrite mean_anomaly_frame by ring.
  apply kepler_solve_circular.
Qed.

Lemma gps_ecef_writes_only_outputs_witness :
  (7 <> 0 /\ 7 <> 0 + 1 /\ 7 <> 0 + 2)%Z /\ Some 10%Z <> Some 7%Z /\
  snd (gps_ecef false frame_circular 0 0 0%Z (Some 10%Z) mem_zero) 7%Z
    = mem_zero 7%Z.
Proof.
  assert (H0 : (7 <> 0)%Z) by lia.
  assert (H1 : (7 <> 0 + 1)%Z) by lia.
  assert (H2 : (7 <> 0 + 2)%Z) by lia.
  assert (HEk : Some 10%Z <> Some 7%Z) by discriminate.
  split; [auto|]. split; [exact HEk|].
  exact (@gps_ecef_writes_only_outputs R _ _ _ false frame_circular 0 0
           0%Z (Some 10%Z) mem_zero 7%Z H0 H1 H2 HEk).
Defined.

Lemma gps_ecef_outputs_witness :
  fst (gps_ecef false frame_circular 0 0 0%Z (Some 10%Z) mem_zero) = 0%Z /\
  exists tk E,
    gps_ecef_tk false 0 0 = inr tk /\
    kepler_solve (mean_anomaly frame_circular tk) (data frame_circular 8)
      = inr E /\
    snd (gps_ecef false frame_circular 0 0 0%Z (Some 10%Z) mem_zero) 10%Z
      = E.
Proof.
  pose proof (gps_ecef_circular_solved 0%Z (Some 10%Z) mem_zero) as Hok.
  split; [exact Hok|].
  destruct (gps_ecef_outputs (D := R) false frame_circular 0 0 0%Z
              (Some 10%Z) mem_zero Hok) as (tk & E & Htk & Hsolve & _ & HEk).
  exists tk, E. split; [exact Htk|]. split; [exact Hsolve|].
  apply HEk; [reflexivity | lia | lia | lia].
Defined.

Lemma gps_dtsv_reuses_Ek_witness :
  gps_ecef_tk false 0 0 = inr (0 - 0) /\
  gps_dtsv_wrap 0 = 0 - 0 /\
  (10 <> 0 /\ 10 <> 0 + 1 /\ 10 <> 0 + 2)%Z /\
  fst (gps_ecef false frame_circular 0 0 0%Z (Some 10%Z) mem_zero) = 0%Z /\
  gps_dtsv frame_circular 0 7%Z (Some 10%Z)
    (snd (gps_ecef false frame_circular 0 0 0%Z (Some 10%Z) mem_zero)) =
  gps_dtsv frame_circular 0 7%Z None
    (snd (gps_ecef false frame_circular 0 0 0%Z (Some 10%Z) mem_zero)).
Proof.
  assert (Htk : gps_ecef_tk false 0 0 = inr (0 - 0)) by reflexivity.
  assert (Hwrap : gps_dtsv_wrap 0 = 0 - 0)
    by (rewrite gps_dtsv_wrap_small by lra; ring).
  assert (H0 : (10 <> 0)%Z) by lia.
  assert (H1 : (10 <> 0 + 1)%Z) by lia.
  assert (H2 : (10 <> 0 + 2)%Z) by lia.
  pose proof (gps_ecef_circular_solved 0%Z (Some 10%Z) mem_zero) as Hok.
  split; [exact Htk|]. split; [exact Hwrap|]. split; [auto|].
  split; [exact Hok|].
  exact (@gps_dtsv_reuses_Ek R _ _ _ false frame_circular 0 0 (0 - 0) 0
           0%Z 10%Z 7%Z mem_zero Htk Hwrap H0 H1 H2 Hok).
Defined.

Lemma gps_stateNclock_clock_is_gps_dtsv_witness :
  of_long (delta_sec_underlying (44244%Z, 0) (toc__ frame_circular))
    = delta_sec_fractional (44244%Z, 0) (toc__ frame_circular) /\
  fst (gps_ecef false frame_circular 0 0 0%Z None mem_zero) = 0%Z /\
  fst (gps_stateNclock false frame_circular (44244%Z, 0) 0%Z 7%Z mem_zero)
    = fst (gps_dtsv_epoch frame_circular (44244%Z, 0) 7%Z mem_zero).
Proof.
  assert (Hsec : of_long (delta_sec_underlying (44244%Z, 0)
                            (toc__ frame_circular))
                 = delta_sec_fractional (44244%Z, 0) (toc__ frame_circular)).
  { cbn [delta_sec_underlying Rdeltasec toc__ frame_circular gps_frame
         fst snd delta_sec_fractional Rdatetime].
    replace (0 - 0) with 0 by ring. rewrite Rtrunc_0.
    unfold of_long. cbn. lra. }
  pose proof (gps_ecef_circular_solved 0%Z None mem_zero) as Hok.
  split; [exact Hsec|]. split; [exact Hok|].
  pose proof (@gps_stateNclock_clock_is_gps_dtsv R _ _ _ _ _ false
                frame_circular (44244%Z, 0) 0%Z 7%Z mem_zero Hsec) as H.
  unfold frame_circular in H at 1.
  rewrite gps_stateNclock_secs_frame in H.
  exact (proj1 (H Hok)).
Defined.

End RunsOfTheRest.

(** ** The recomputed anomalies *)

Section PrincipalValues.

Context {D : Type} {arith : Arith D} {libm : Libm D} {T : Type}.
Local Open Scope dbl_scope.

Implicit Types (nav : NavDataFrame D T) (m : mem D).


End PrincipalValues.

(** ** A circular orbit, in IEEE 754 double precision *)

Section Binary64Circular.

Import PrimFloat.
Local Open Scope dbl_scope.







End Binary64Circular.

(** ** Runs in double precision *)

Section Binary64Runs.

Import PrimFloat.
Local Open Scope dbl_scope.







Lemma kepler_solve_cycle_witness :
  mean_anomaly b64_frame_cycle (0%float - 0%float) = 0x1.835p+6%float /\
  data b64_frame_cycle 8 = 0x1.0624dd2f1a9fcp-10%float /\
  kepler_E (libm := cmath_values) 0x1.835p+6%float
    0x1.0624dd2f1a9fcp-10%float 4 = 0x1.83508b67f93b4p+6%float /\
  kepler_E (libm := cmath_values) 0x1.835p+6%float
    0x1.0624dd2f1a9fcp-10%float 5 = 0x1.83508b67f93b5p+6%float /\
  kepler_E (libm := cmath_values) 0x1.835p+6%float
    0x1.0624dd2f1a9fcp-10%float 6 = 0x1.83508b67f93b4p+6%float /\
  gps_ecef (libm := cmath_values) false b64_frame_cycle 0%float 0%float
    0%Z (Some 10%Z) b64_mem_zero = (1%Z, b64_mem_zero).
Proof.
  assert (Htk : gps_ecef_tk false 0%float 0%float
                = inr (0%float - 0%float)) by reflexivity.
  assert (Hcycle :
            kepler_E (libm := cmath_values)
              (mean_anomaly b64_frame_cycle (0%float - 0%float))
              (data b64_frame_cycle 8) 6
            = kepler_E (libm := cmath_values)
                (mean_anomaly b64_frame_cycle (0%float - 0%float))
                (data b64_frame_cycle 8) 4)
    by (vm_compute; reflexivity).
  assert (Hfirst : forall j, (j <= 6)%nat ->
            kepler_test (libm := cmath_values)
              (mean_anomaly b64_frame_cycle (0%float - 0%float))
              (data b64_frame_cycle 8) j = true).
  { intros j Hj.
    do 7 (destruct j as [|j]; [vm_compute; reflexivity|]). lia. }
  do 5 (split; [vm_compute; reflexivity|]).
  exact (proj2 (@kepler_solve_cycle float binary64 cmath_values unit false
                  b64_frame_cycle 0%float 0%float (0%float - 0%float) 0%Z
                  (Some 10%Z) b64_mem_zero 4 Htk Hcycle Hfirst)).
Defined.

End Binary64Runs.

(** ** A run of the clock correction *)

Section ClockRun.

Local Open Scope R_scope.



End ClockRun.
